(** * The agentic molecule pipeline: generate, evaluate, screen, rank, reseed

    A shallow embedding of the optimisation loop of the repository:

    - [app/screening/rules.py]        (class [MoleculeScreening])
    - [app/agents/generator.py]       (class [GeneratorAgent])
    - [app/agents/ranker.py]          (class [RankerAgent])
    - [app/agents/planner.py]         (class [PlannerAgent])
    - [app/chemistry/rdkit_tool.py]   (class [RDKitTool])
    - [app/factories/tool_factory.py] (class [ToolFactory])
    - [app/runner/pipeline.py]        (class [AgenticPipeline])

    Python values are embedded as follows.  An [int] is a [Z]; a [float] is a
    binary64 value of the primitive type [float], with IEEE 754 arithmetic;
    a [str] is a [string]; a [list] is a [list]; the descriptor dictionary
    is a [gmap string num]; the dictionaries with a fixed set of keys that
    the pipeline builds are records.  An exception is the value [Raise msg],
    where [msg] is the text [str(e)] of the exception; the arithmetic of the
    scoring formula raises [OverflowError] when an [int] operand is outside
    the range of binary64.  The generator of pseudo-random numbers is a stream
    of draws that is threaded through the code that calls [random.choice].

    Logging, trace events and time stamps do not influence any value that is
    computed by the loop and are left out. *)

From Stdlib Require Import ZArith Floats Lia.
From stdpp Require Import gmap strings list fin_maps sorting pretty.

Set Warnings "-inexact-float".
Local Open Scope Z_scope.

(** ** Python built-ins used by the source *)

Module Py.

(** *** Exceptions and stateful code *)

Inductive result (A : Type) : Type :=
| Ok (a : A)
| Raise (msg : string).
Arguments Ok {A} a.
Arguments Raise {A} msg.

(** A computation over a state [S].  When it raises, the state is the one
    reached at the point of the [raise], which is what an [except] clause
    observes. *)
Definition M (S A : Type) : Type := S -> result A * S.

Definition ret {S A} (a : A) : M S A := fun s => (Ok a, s).

Definition bind {S A B} (m : M S A) (k : A -> M S B) : M S B :=
  fun s =>
    match m s with
    | (Ok a, s') => k a s'
    | (Raise e, s') => (Raise e, s')
    end.

Definition raise {S A} (msg : string) : M S A := fun s => (Raise msg, s).

(** [try: m  except Exception as e: h e] *)
Definition try_except {S A} (m : M S A) (h : string -> M S A) : M S A :=
  fun s =>
    match m s with
    | (Ok a, s') => (Ok a, s')
    | (Raise e, s') => h e s'
    end.

Definition get {S} : M S S := fun s => (Ok s, s).
Definition modify {S} (f : S -> S) : M S unit := fun s => (Ok tt, f s).

(** Run a computation over a component [T] of the state [S]. *)
Definition zoom {S T A} (proj : S -> T) (upd : T -> S -> S) (m : M T A) : M S A :=
  fun s => let '(r, t) := m (proj s) in (r, upd t s).

(** *** Numbers *)

(** A numeric descriptor: Python [int] or [float]. *)
Inductive num : Type :=
| Int (z : Z)
| Float (f : float).

(** The binary64 value nearest to the integer [z], ties to even; it is [z]
    itself when [|z| <= 2^53], and an infinity when [z] is outside the range
    of binary64.  No operation of Python is this function on all integers:
    a comparison of a float with an [int] compares the exact values, which
    is what [gt_int] below computes on the constants of the rule table, and
    arithmetic converts an [int] operand with [int_to_float]. *)
Definition float_of_int (z : Z) : float :=
  SF2Prim (binary_normalize prec emax z 0 false).

(** The integers from [FLOAT_LIMIT] on are nearer to [2^1024] than to the
    largest binary64 value, [2^1024 - 2^971]. *)
Definition FLOAT_LIMIT : Z := 2 ^ 1024 - 2 ^ 970.

(** The conversion of an [int] operand of float arithmetic: the nearest
    binary64 value, and [OverflowError] when the integer is outside the
    range of binary64. *)
Definition int_to_float (z : Z) : result float :=
  if Z.abs z <? FLOAT_LIMIT then Ok (float_of_int z)
  else Raise "int too large to convert to float".

(** The float operand that arithmetic makes of a number. *)
Definition to_float (v : num) : result float :=
  match v with
  | Int z => int_to_float z
  | Float f => Ok f
  end.

(** [x * z] for a float [x] and an [int] [z]. *)
Definition float_mul_int (x : float) (z : Z) : result float :=
  match int_to_float z with
  | Ok y => Ok (x * y)%float
  | Raise e => Raise e
  end.

(** [v - y] for a number [v] and a float [y]. *)
Definition num_sub_float (v : num) (y : float) : result float :=
  match to_float v with
  | Ok x => Ok (x - y)%float
  | Raise e => Raise e
  end.

(** [v > k] for an integer constant [k] of the rule table.  Comparing a
    float with [nan] is false. *)
Definition gt_int (v : num) (k : Z) : bool :=
  match v with
  | Int z => k <? z
  | Float f => (float_of_int k <? f)%float
  end.

(** *** [round(x, ndigits)] on floats

    CPython prints the exact binary value of [x] with [ndigits] digits
    after the point, correctly rounded with ties to even, and reads the
    decimal back as the nearest binary64 value.  The sign is kept, so a
    small negative number rounds to [-0.0]; infinities and [nan] round to
    themselves. *)

Definition round_half_even_div (a b : Z) : Z :=
  let q := a / b in
  let r := a mod b in
  match 2 * r ?= b with
  | Lt => q
  | Gt => q + 1
  | Eq => if Z.even q then q else q + 1
  end.

(** The integer nearest to [m * 2^e * 10^ndigits]. *)
Definition scaled_nearest (m : positive) (e : Z) (ndigits : nat) : Z :=
  let p := 10 ^ Z.of_nat ndigits in
  if 0 <=? e then Z.pos m * 2 ^ e * p
  else round_half_even_div (Z.pos m * p) (2 ^ (- e)).

(** The binary64 value nearest to the fraction [n / d], with sign [s]. *)
Definition nearest_quotient (s : bool) (n d : positive) : float :=
  SF2Prim (SFdiv prec emax (S754_finite s n 0) (S754_finite false d 0)).

Definition round (x : float) (ndigits : nat) : float :=
  match Prim2SF x with
  | S754_finite s m e =>
      match scaled_nearest m e ndigits with
      | Z.pos n => nearest_quotient s n (Z.to_pos (10 ^ Z.of_nat ndigits))
      | _ => if s then neg_zero else zero
      end
  | _ => x
  end.

(** *** Strings *)

(** Truth value of a string: [if s]. *)
Definition truthy (s : string) : bool :=
  match s with
  | EmptyString => false
  | String _ _ => true
  end.

Fixpoint drop_chars (n : nat) (s : string) : string :=
  match n, s with
  | O, _ => s
  | S n', String _ s' => drop_chars n' s'
  | S _, EmptyString => EmptyString
  end.

(** [old in s] *)
Fixpoint contains (old s : string) : bool :=
  if String.prefix old s then true
  else match s with
       | EmptyString => false
       | String _ s' => contains old s'
       end.

(** [s.replace(old, new, 1)]: the leftmost occurrence of [old] becomes
    [new]; [s] itself when there is none. *)
Fixpoint replace_first (old new s : string) : string :=
  if String.prefix old s then new +:+ drop_chars (String.length old) s
  else match s with
       | EmptyString => EmptyString
       | String c s' => String c (replace_first old new s')
       end.

(** *** Lists *)

Definition len {A} (l : list A) : Z := Z.of_nat (length l).

(** [l[:k]]: a negative [k] counts from the end. *)
Definition slice_to {A} (l : list A) (k : Z) : list A :=
  if 0 <=? k then take (Z.to_nat k) l
  else take (length l - Z.to_nat (- k)) l.

(** [x in l] for a list of strings. *)
Definition mem (x : string) (l : list string) : bool := bool_decide (x ∈ l).

(** [sorted(l, key=key, reverse=True)].  The built-in sort is stable, also
    with [reverse=True]: elements whose keys compare equal keep the order
    of the input.  On keys that [<] orders totally (no [nan]) the result
    of a stable sort is determined by the input, and it is the one
    computed here by insertion from the right. *)
Section Sorted.
Context {A : Type} (key : A -> float).

Fixpoint insert_desc (x : A) (l : list A) : list A :=
  match l with
  | [] => [x]
  | y :: l' =>
      if (key x <? key y)%float then y :: insert_desc x l' else x :: y :: l'
  end.

Definition sorted_reverse (l : list A) : list A := foldr insert_desc [] l.
End Sorted.

(** *** [random.choice]

    The generator is the stream of the indices it is going to draw; a draw
    from a sequence of length [k] is reduced modulo [k]. *)
Definition rng : Type := nat -> nat.

Definition rng_tail (g : rng) : rng := fun i => g (S i).

Definition choice {A} (l : list A) : M rng A :=
  fun g =>
    match l !! (g O mod length l)%nat with
    | Some x => (Ok x, rng_tail g)
    | None => (Raise "Cannot choose from an empty sequence", g)
    end.

End Py.

Import Py.

Global Instance M_ret {S} : MRet (M S) := @Py.ret S.
Global Instance M_bind {S} : MBind (M S) := fun A B k m => Py.bind m k.

(** Code that raises and has no state. *)
Global Instance result_ret : MRet result := @Ok.
Global Instance result_bind : MBind result := fun A B k m =>
  match m with
  | Ok a => k a
  | Raise e => Raise e
  end.

(** ** [app/screening/rules.py] *)

Module MoleculeScreening.

Record rule : Type := { rule_max : Z; rule_name : string }.

(** The class attribute [RULES]; a Python [dict] iterates in insertion
    order. *)
Definition RULES : list (string * rule) :=
  [ ("mw",   {| rule_max := 500; rule_name := "Molecular Weight <= 500" |});
    ("logp", {| rule_max := 5;   rule_name := "LogP <= 5" |});
    ("hbd",  {| rule_max := 5;   rule_name := "H-Bond Donors <= 5" |});
    ("hba",  {| rule_max := 10;  rule_name := "H-Bond Acceptors <= 10" |});
    ("tpsa", {| rule_max := 140; rule_name := "TPSA <= 140" |}) ].

(** The dictionary returned by [screen]. *)
Record screening_result : Type :=
  { passed : bool; violations : Z; violated_rules : list string }.

(** The instance: [self.max_violations]. *)
Record t : Type := { max_violations : Z }.

(** One iteration of [for prop, rule in self.RULES.items()]. *)
Definition check_rule (properties : gmap string num)
    (violations : list string) (entry : string * rule) : list string :=
  let '(prop, rule) := entry in
  match properties !! prop with
  | None => violations
  | Some value =>
      let max_val := rule_max rule in
      if negb (max_val =? 0) && gt_int value max_val
      then violations ++ [rule_name rule]
      else violations
  end.

Definition screen (self : t) (properties : gmap string num) : screening_result :=
  let violations := foldl (check_rule properties) [] RULES in
  let n_violations := len violations in
  {| passed := n_violations <=? max_violations self;
     violations := n_violations;
     violated_rules := violations |}.

(** [score = qed - (penalty * violations); return round(score, 4)]: the
    product is computed first, then the difference. *)
Definition score (properties : gmap string num)
    (screening_result : screening_result) (penalty : float) : result float :=
  let qed := default (Float 0) (properties !! "qed") in
  let violations := violations screening_result in
  product ← float_mul_int penalty violations;
  score ← num_sub_float qed product;
  mret (Py.round score 4).

(** The dictionary returned by [evaluate_molecule]. *)
Record evaluation : Type :=
  { ev_screening_result : screening_result; ev_score : float }.

Definition evaluate_molecule (self : t) (properties : gmap string num)
    (penalty : float) : result evaluation :=
  let screening_result := screen self properties in
  score ← score properties screening_result penalty;
  mret {| ev_screening_result := screening_result; ev_score := score |}.

End MoleculeScreening.

(** ** The molecule dictionary built by the pipeline

    [{"smiles", "valid", "round", "properties", "screening_result", "score"}],
    to which the last phase of a run adds ["rank"]. *)

Record mol : Type :=
  { mol_smiles : string;
    mol_valid : bool;
    mol_round : Z;
    mol_properties : gmap string num;
    mol_screening_result : MoleculeScreening.screening_result;
    mol_score : float;
    mol_rank : option Z }.

(** [m = dict(m); m["score"] = s] *)
Definition with_score (m : mol) (s : float) : mol :=
  {| mol_smiles := mol_smiles m; mol_valid := mol_valid m;
     mol_round := mol_round m; mol_properties := mol_properties m;
     mol_screening_result := mol_screening_result m;
     mol_score := s; mol_rank := mol_rank m |}.

(** [m["rank"] = r] *)
Definition with_rank (m : mol) (r : Z) : mol :=
  {| mol_smiles := mol_smiles m; mol_valid := mol_valid m;
     mol_round := mol_round m; mol_properties := mol_properties m;
     mol_screening_result := mol_screening_result m;
     mol_score := mol_score m; mol_rank := Some r |}.

(** ** [app/agents/generator.py] *)

Module GeneratorAgent.

Definition BASE_MOLECULES : list string :=
  [ "CC(C)Cc1ccc(cc1)C(C)C(O)=O";
    "CC(=O)Oc1ccccc1C(O)=O";
    "CN1C=NC2=C1C(=O)N(C(=O)N2C)C";
    "c1ccc(cc1)C(=O)O";
    "c1ccccc1";
    "CC(C)NCC(COc1ccccc1)O";
    "Cc1ccc(cc1)S(=O)(=O)N";
    "CCN(CC)CCNC(=O)c1cc(ccc1OC)N" ].

Definition MUTATIONS : list (string * string) :=
  [ ("C", "CC");
    ("c1ccccc1", "c1cc(C)ccc1");
    ("C(=O)O", "C(=O)OC");
    ("N", "NC");
    ("c1ccccc1", "c1ccc(O)cc1") ].

(** The body of the [try] block of [_apply_random_mutation]. *)
Definition mutate_with (entry : string * string) (smiles : string) : string :=
  let '(old, new) := entry in
  if contains old smiles then replace_first old new smiles else smiles.

Definition _apply_random_mutation (smiles : string) : M rng string :=
  try_except
    (entry ← choice MUTATIONS; mret (mutate_with entry smiles))
    (fun _ => mret smiles).

(** The first loop of [_generate_base_candidates]; [fuel] is
    [max_attempts - attempts]. *)
Fixpoint base_loop (fuel : nat) (n : Z) (candidates : list string)
  : M rng (list string) :=
  match fuel with
  | O => mret candidates
  | S fuel' =>
      if len candidates <? n then
        base ← choice BASE_MOLECULES;
        let candidates :=
          if mem base candidates then candidates else candidates ++ [base] in
        candidates ←
          (if len candidates <? n then
             variant ← _apply_random_mutation base;
             mret (if truthy variant && negb (mem variant candidates)
                   then candidates ++ [variant] else candidates)
           else mret candidates);
        base_loop fuel' n candidates
      else mret candidates
  end.

(** [while len(candidates) < n: candidates.append(random.choice(...))];
    every iteration adds one element, so [fuel] is [n - len(candidates)]. *)
Fixpoint base_fill (fuel : nat) (n : Z) (candidates : list string)
  : M rng (list string) :=
  match fuel with
  | O => mret candidates
  | S fuel' =>
      if len candidates <? n then
        base ← choice BASE_MOLECULES;
        base_fill fuel' n (candidates ++ [base])
      else mret candidates
  end.

Definition _generate_base_candidates (n : Z) : M rng (list string) :=
  let max_attempts := n * 5 in
  candidates ← base_loop (Z.to_nat max_attempts) n [];
  candidates ← base_fill (Z.to_nat (n - len candidates)) n candidates;
  mret (slice_to candidates n).

(** The mutation loop of [_generate_mutated_candidates]; [fuel] is
    [max_attempts - attempts]. *)
Fixpoint mutate_loop (fuel : nat) (seeds : list string) (n : Z)
    (attempts : Z) (candidates : list string) : M rng (list string) :=
  match fuel with
  | O => mret candidates
  | S fuel' =>
      if len candidates <? n then
        let attempts := attempts + 1 in
        seed ← choice seeds;
        mutated ← _apply_random_mutation seed;
        if truthy mutated && (negb (mem mutated candidates) || (n * 2 <? attempts))
        then
          let candidates := candidates ++ [mutated] in
          if n <=? len candidates then mret candidates
          else mutate_loop fuel' seeds n attempts candidates
        else mutate_loop fuel' seeds n attempts candidates
      else mret candidates
  end.

(** The last loop of [_generate_mutated_candidates]; [fuel] is
    [n - len(candidates)]. *)
Fixpoint cycle_fill (fuel : nat) (n : Z) (base_idx : nat)
    (candidates : list string) : list string :=
  match fuel with
  | O => candidates
  | S fuel' =>
      if len candidates <? n then
        cycle_fill fuel' n (S base_idx)
          (candidates ++
             [default "" (BASE_MOLECULES !! (base_idx mod length BASE_MOLECULES)%nat)])
      else candidates
  end.

Definition _generate_mutated_candidates (seeds : list string) (n : Z)
  : M rng (list string) :=
  let candidates := slice_to seeds (Z.min (len seeds) n) in
  let max_attempts := n * 3 in
  candidates ← mutate_loop (Z.to_nat max_attempts) seeds n 0 candidates;
  let candidates := cycle_fill (Z.to_nat (n - len candidates)) n 0 candidates in
  mret (slice_to candidates n).

(** The [context] dictionary: a key may be absent. *)
Record context : Type :=
  { n_candidates : option Z;
    round_num : option Z;
    seed_molecules : option (list string) }.

(** The dictionary returned by [act]. *)
Record output : Type :=
  { candidates : list string; agent : string; round : Z }.

Definition act (name : string) (context : context) : M rng output :=
  let n_candidates := default 50 (n_candidates context) in
  let round_num := default 1 (round_num context) in
  let seed_molecules := default [] (seed_molecules context) in
  candidates ←
    (if (round_num =? 1) || bool_decide (seed_molecules = [])
     then _generate_base_candidates n_candidates
     else _generate_mutated_candidates seed_molecules n_candidates);
  mret {| candidates := candidates; agent := name; round := round_num |}.

End GeneratorAgent.

(** ** [app/agents/ranker.py] *)

Module RankerAgent.

Definition _calculate_score (molecule : mol) (penalty : float) : result float :=
  let qed := default (Float 0) (mol_properties molecule !! "qed") in
  let violations := MoleculeScreening.violations (mol_screening_result molecule) in
  product ← float_mul_int penalty violations;
  score ← num_sub_float qed product;
  mret (Py.round score 4).

(** The [context] dictionary: a key may be absent. *)
Record context : Type :=
  { molecules : option (list mol);
    scoring_penalty : option float;
    top_k : option Z }.

(** The dictionary returned by [act]. *)
Record output : Type :=
  { ranked_molecules : list mol;
    top_molecules : list mol;
    agent : string;
    n_ranked : Z;
    n_top : Z }.

(** The loop [for mol in molecules] of [act]. *)
Fixpoint score_molecules (molecules : list mol) (scoring_penalty : float)
    (scored_molecules : list mol) : result (list mol) :=
  match molecules with
  | [] => mret scored_molecules
  | mol :: molecules' =>
      score ← _calculate_score mol scoring_penalty;
      let mol_copy := with_score mol score in
      score_molecules molecules' scoring_penalty (scored_molecules ++ [mol_copy])
  end.

Definition act (name : string) (context : context) : result output :=
  let molecules := default [] (molecules context) in
  let scoring_penalty := default 0.1%float (scoring_penalty context) in
  let top_k := default 5 (top_k context) in
  scored_molecules ← score_molecules molecules scoring_penalty [];
  let ranked := sorted_reverse mol_score scored_molecules in
  let top_molecules := slice_to ranked top_k in
  mret {| ranked_molecules := ranked;
          top_molecules := top_molecules;
          agent := name;
          n_ranked := len ranked;
          n_top := len top_molecules |}.

End RankerAgent.

(** ** [app/agents/planner.py] *)

Module PlannerAgent.

(** The attributes set by [__init__]. *)
Record t : Type :=
  { rounds : Z;
    candidates_per_round : Z;
    top_k : Z;
    max_violations : Z;
    scoring_penalty : float }.

(** The run parameters, which serve both as keyword arguments of
    [__init__] and as the [context] of [act]: a key may be absent; a value
    is a number of the type that the signature of [__init__] declares. *)
Record context : Type :=
  { ctx_rounds : option Z;
    ctx_candidates_per_round : option Z;
    ctx_top_k : option Z;
    ctx_max_violations : option Z;
    ctx_scoring_penalty : option float }.

(** The planner built from the run parameters as keyword arguments, with
    the defaults of [__init__]. *)
Definition __init__ (kwargs : context) : t :=
  {| rounds := default 3 (ctx_rounds kwargs);
     candidates_per_round := default 50 (ctx_candidates_per_round kwargs);
     top_k := default 5 (ctx_top_k kwargs);
     max_violations := default 1 (ctx_max_violations kwargs);
     scoring_penalty := default 0.1%float (ctx_scoring_penalty kwargs) |}.

(** The plan returned by [act] has the same five keys. *)
Definition act (self : t) (context : context) : t :=
  {| rounds := default (rounds self) (ctx_rounds context);
     candidates_per_round :=
       default (candidates_per_round self) (ctx_candidates_per_round context);
     top_k := default (top_k self) (ctx_top_k context);
     max_violations := default (max_violations self) (ctx_max_violations context);
     scoring_penalty := default (scoring_penalty self) (ctx_scoring_penalty context) |}.

End PlannerAgent.

(** ** The property oracle

    The interface of [RDKitTool.process_molecule]: a dictionary with the keys
    ["smiles"], ["valid"], ["properties"] and ["error"].  The call is a
    function of the structure string; [Raise] stands for a call that throws
    instead of returning. *)

Record process_result : Type :=
  { pr_smiles : string;
    pr_valid : bool;
    pr_properties : option (gmap string num);
    pr_error : option string }.

Definition chemistry_tool : Type := string -> result process_result.

(** ** [app/chemistry/rdkit_tool.py] *)

Module RDKitTool.

(** The toolkit [rdkit] as far as the tool calls it: the parser
    [Chem.MolFromSmiles], which returns [None] for a string that it cannot
    parse, [Chem.SanitizeMol], which works on the molecule it is given, and
    the descriptors.  Every call may raise. *)
Record toolkit : Type :=
  { Mol : Type;
    MolFromSmiles : string -> result (option Mol);
    SanitizeMol : Mol -> result Mol;
    MolWt : Mol -> result float;
    MolLogP : Mol -> result float;
    NumHDonors : Mol -> result Z;
    NumHAcceptors : Mol -> result Z;
    TPSA : Mol -> result float;
    NumRotatableBonds : Mol -> result Z;
    qed : Mol -> result float }.

(** [RDKIT_AVAILABLE] is false when the import of the toolkit failed:
    there is no toolkit then, and the constructor raises [ImportError]. *)
Definition __init__ (rdkit : option toolkit) : result toolkit :=
  match rdkit with
  | Some rdkit => Ok rdkit
  | None => Raise "RDKit is not installed. Install with: pip install rdkit"
  end.

Definition validate_smiles (rdkit : toolkit) (smiles : string) : bool :=
  match MolFromSmiles rdkit smiles with
  | Ok mol => bool_decide (is_Some mol)
  | Raise _ => false
  end.

(** The [try] block of [compute_properties]. *)
Definition properties_of (rdkit : toolkit) (smiles : string)
  : result (option (gmap string num)) :=
  mol ← MolFromSmiles rdkit smiles;
  match mol with
  | None => mret None
  | Some mol =>
      mol ← SanitizeMol rdkit mol;
      mw ← MolWt rdkit mol;
      logp ← MolLogP rdkit mol;
      hbd ← NumHDonors rdkit mol;
      hba ← NumHAcceptors rdkit mol;
      tpsa ← TPSA rdkit mol;
      rotatable_bonds ← NumRotatableBonds rdkit mol;
      qed ← qed rdkit mol;
      mret (Some (<["mw" := Float (Py.round mw 2)]>
                 (<["logp" := Float (Py.round logp 2)]>
                 (<["hbd" := Int hbd]>
                 (<["hba" := Int hba]>
                 (<["tpsa" := Float (Py.round tpsa 2)]>
                 (<["rotatable_bonds" := Int rotatable_bonds]>
                 (<["qed" := Float (Py.round qed 4)]> ∅))))))))
  end.

Definition compute_properties (rdkit : toolkit) (smiles : string)
  : option (gmap string num) :=
  match properties_of rdkit smiles with
  | Ok properties => properties
  | Raise _ => None
  end.

Definition process_molecule (rdkit : toolkit) (smiles : string) : process_result :=
  if negb (validate_smiles rdkit smiles) then
    {| pr_smiles := smiles; pr_valid := false; pr_properties := None;
       pr_error := Some "Invalid SMILES" |}
  else
    match compute_properties rdkit smiles with
    | None =>
        {| pr_smiles := smiles; pr_valid := false; pr_properties := None;
           pr_error := Some "Failed to compute properties" |}
    | Some properties =>
        {| pr_smiles := smiles; pr_valid := true; pr_properties := Some properties;
           pr_error := None |}
    end.

End RDKitTool.

(** ** [app/factories/tool_factory.py] *)

Module ToolFactory.

(** The tool as the pipeline uses it: its method [process_molecule]. *)
Definition create_chemistry_tool (rdkit : option RDKitTool.toolkit)
  : result chemistry_tool :=
  self ← RDKitTool.__init__ rdkit;
  mret (fun smiles => Ok (RDKitTool.process_molecule self smiles)).

Definition create_tool (rdkit : option RDKitTool.toolkit) (tool_type : string)
  : result chemistry_tool :=
  if String.eqb tool_type "chemistry" then create_chemistry_tool rdkit
  else Raise ("Unknown tool type: " +:+ tool_type).

End ToolFactory.

(** ** [app/runner/pipeline.py] *)

Module AgenticPipeline.

(** The row of the run in the table [runs]. *)
Record Run : Type :=
  { status : string;
    current_round : option Z;
    progress_message : option string;
    error_message : option string }.

(** The database session: the run object held by the pipeline and the
    molecule rows handed to [db.add], and what [db.commit] has written. *)
Record session : Type :=
  { run_row : Run;
    added : list mol;
    stored_run : Run;
    stored_molecules : list mol }.

(** What one round computed; kept for the statements only. *)
Record round_log : Type :=
  { rl_round : Z;
    rl_seed : list string;
    rl_candidates : list string;
    rl_processed : list mol;
    rl_ranked : list mol;
    rl_top : list mol }.

Record world : Type :=
  { db : session;
    random : rng;
    log : list round_log }.

Definition on_run (f : Run -> Run) : M world unit :=
  modify (fun w =>
    {| db := {| run_row := f (run_row (db w));
                added := added (db w);
                stored_run := stored_run (db w);
                stored_molecules := stored_molecules (db w) |};
       random := random w;
       log := log w |}).

Definition set_progress (msg : string) : M world unit :=
  on_run (fun r =>
    {| status := status r; current_round := current_round r;
       progress_message := Some msg; error_message := error_message r |}).

(** [db.add(db_mol)] *)
Definition db_add (m : mol) : M world unit :=
  modify (fun w =>
    {| db := {| run_row := run_row (db w);
                added := added (db w) ++ [m];
                stored_run := stored_run (db w);
                stored_molecules := stored_molecules (db w) |};
       random := random w;
       log := log w |}).

(** [db.commit()] *)
Definition db_commit : M world unit :=
  modify (fun w =>
    {| db := {| run_row := run_row (db w);
                added := [];
                stored_run := run_row (db w);
                stored_molecules := stored_molecules (db w) ++ added (db w) |};
       random := random w;
       log := log w |}).

Definition with_random {A} (m : M rng A) : M world A :=
  zoom random (fun g w => {| db := db w; random := g; log := log w |}) m.

Definition log_round (r : round_log) : M world unit :=
  modify (fun w => {| db := db w; random := random w; log := log w ++ [r] |}).

Definition lift {A} (r : result A) : M world A := fun w => (r, w).

(** The loop [for idx, smiles in enumerate(candidates, 1)] of a round. *)
Fixpoint process_molecules (tool : chemistry_tool)
    (screening : MoleculeScreening.t) (scoring_penalty : float) (round_num : Z)
    (candidates : list string) (processed_molecules : list mol) (valid_count : Z)
  : result (list mol * Z) :=
  match candidates with
  | [] => Ok (processed_molecules, valid_count)
  | smiles :: candidates' =>
      match tool smiles with
      | Raise e => Raise e
      | Ok result =>
          if pr_valid result then
            let valid_count := valid_count + 1 in
            match pr_properties result with
            | None => Raise "'NoneType' object has no attribute 'get'"
            | Some properties =>
                match MoleculeScreening.evaluate_molecule screening properties
                        scoring_penalty with
                | Raise e => Raise e
                | Ok eval_result =>
                    let mol_data :=
                      {| mol_smiles := smiles;
                         mol_valid := true;
                         mol_round := round_num;
                         mol_properties := properties;
                         mol_screening_result :=
                           MoleculeScreening.ev_screening_result eval_result;
                         mol_score := MoleculeScreening.ev_score eval_result;
                         mol_rank := None |} in
                    process_molecules tool screening scoring_penalty round_num candidates'
                      (if MoleculeScreening.passed
                            (MoleculeScreening.ev_screening_result eval_result)
                       then processed_molecules ++ [mol_data]
                       else processed_molecules)
                      valid_count
                end
            end
          else
            process_molecules tool screening scoring_penalty round_num candidates'
              processed_molecules valid_count
      end
  end.

Definition round_message (round_num rounds : Z) (phase : string) : string :=
  "Round " +:+ pretty round_num +:+ "/" +:+ pretty rounds +:+ ": " +:+ phase.

(** The body of [for round_num in range(1, rounds + 1)]; it returns the
    new values of [seed_molecules] and [all_molecules]. *)
Definition run_round (tool : chemistry_tool) (plan : PlannerAgent.t)
    (screening : MoleculeScreening.t) (round_num : Z)
    (seed_molecules all_molecules : list mol) : M world (list mol * list mol) :=
  let rounds := PlannerAgent.rounds plan in
  on_run (fun r =>
    {| status := status r; current_round := Some round_num;
       progress_message := Some (round_message round_num rounds "Generating candidates...");
       error_message := error_message r |});;
  db_commit;;
  let gen_context :=
    {| GeneratorAgent.n_candidates := Some (PlannerAgent.candidates_per_round plan);
       GeneratorAgent.round_num := Some round_num;
       GeneratorAgent.seed_molecules := Some (map mol_smiles seed_molecules) |} in
  gen_result ← with_random (GeneratorAgent.act "generator" gen_context);
  let candidates := GeneratorAgent.candidates gen_result in
  set_progress (round_message round_num rounds "Computing properties...");;
  db_commit;;
  '(processed_molecules, valid_count) ←
    lift (process_molecules tool screening (PlannerAgent.scoring_penalty plan)
            round_num candidates [] 0);
  set_progress (round_message round_num rounds "Screening molecules...");;
  db_commit;;
  set_progress (round_message round_num rounds "Ranking molecules...");;
  db_commit;;
  let rank_context :=
    {| RankerAgent.molecules := Some processed_molecules;
       RankerAgent.scoring_penalty := Some (PlannerAgent.scoring_penalty plan);
       RankerAgent.top_k := Some (PlannerAgent.top_k plan) |} in
  rank_result ← lift (RankerAgent.act "ranker" rank_context);
  let ranked_molecules := RankerAgent.ranked_molecules rank_result in
  let top_molecules := RankerAgent.top_molecules rank_result in
  log_round
    {| rl_round := round_num;
       rl_seed := map mol_smiles seed_molecules;
       rl_candidates := candidates;
       rl_processed := processed_molecules;
       rl_ranked := ranked_molecules;
       rl_top := top_molecules |};;
  mret (top_molecules, all_molecules ++ ranked_molecules).

Fixpoint run_rounds (tool : chemistry_tool) (plan : PlannerAgent.t)
    (screening : MoleculeScreening.t) (round_nums : list Z)
    (seed_molecules all_molecules : list mol) : M world (list mol * list mol) :=
  match round_nums with
  | [] => mret (seed_molecules, all_molecules)
  | round_num :: round_nums' =>
      '(seed_molecules, all_molecules) ←
        run_round tool plan screening round_num seed_molecules all_molecules;
      run_rounds tool plan screening round_nums' seed_molecules all_molecules
  end.

(** [for mol in all_molecules_sorted: db.add(Molecule(...))] *)
Fixpoint save_molecules (molecules : list mol) : M world unit :=
  match molecules with
  | [] => mret tt
  | m :: molecules' => db_add m;; save_molecules molecules'
  end.

(** The dictionary returned by [run]. *)
Inductive outcome : Type :=
| Completed (molecules : list mol) (total : Z)
| Failed (error : string).

(** The plan of the run: [planner.act(parameters)] for the planner that
    the factory builds from the same parameters. *)
Definition resolve_plan (parameters : PlannerAgent.context) : PlannerAgent.t :=
  let planner := PlannerAgent.__init__ parameters in
  PlannerAgent.act planner parameters.

(** The [try] block of [run] up to the creation of the agents and of the
    tool. *)
Definition start_run : M world unit :=
  on_run (fun r =>
    {| status := "running"; current_round := current_round r;
       progress_message := Some "Initializing pipeline...";
       error_message := error_message r |});;
  db_commit;;
  set_progress "Creating agents...";;
  db_commit.

(** From there to the loop over the rounds: the plan of the run. *)
Definition plan_run (parameters : PlannerAgent.context) : M world PlannerAgent.t :=
  set_progress "Planning strategy...";;
  db_commit;;
  mret (resolve_plan parameters).

(** The [try] block of [run] after the loop over the rounds. *)
Definition finish_run (rounds : Z) (all_molecules : list mol) : M world outcome :=
  set_progress "Finalizing results...";;
  db_commit;;
  let all_molecules_sorted :=
    imap (fun idx mol => with_rank mol (Z.of_nat idx + 1))
         (sorted_reverse mol_score all_molecules) in
  save_molecules all_molecules_sorted;;
  on_run (fun r =>
    {| status := "completed"; current_round := Some rounds;
       progress_message := Some "Completed successfully";
       error_message := error_message r |});;
  db_commit;;
  mret (Completed all_molecules_sorted (len all_molecules_sorted)).

(** The [try] block of [run]; [create_chemistry_tool] is what the call
    [ToolFactory.create_chemistry_tool()] returns or raises. *)
Definition run_try (create_chemistry_tool : result chemistry_tool)
    (parameters : PlannerAgent.context) : M world outcome :=
  start_run;;
  chemistry_tool ← lift create_chemistry_tool;
  plan ← plan_run parameters;
  let rounds := PlannerAgent.rounds plan in
  let screening :=
    {| MoleculeScreening.max_violations := PlannerAgent.max_violations plan |} in
  '(seed_molecules, all_molecules) ←
    run_rounds chemistry_tool plan screening (seqZ 1 rounds) [] [];
  finish_run rounds all_molecules.

(** The [except] clause of [run]. *)
Definition fail_run (e : string) : M world outcome :=
  on_run (fun r =>
    {| status := "failed"; current_round := current_round r;
       progress_message := Some ("Failed: " +:+ e);
       error_message := Some e |});;
  db_commit;;
  mret (Failed e).

Definition run (create_chemistry_tool : result chemistry_tool)
    (parameters : PlannerAgent.context) : M world outcome :=
  try_except (run_try create_chemistry_tool parameters) fail_run.

(** A run that was created by the front end and is waiting to start: its
    row is in the table, with the status ["queued"]. *)
Definition queued (g : rng) : world :=
  let r := {| status := "queued"; current_round := Some 0;
              progress_message := None; error_message := None |} in
  {| db := {| run_row := r; added := []; stored_run := r; stored_molecules := [] |};
     random := g;
     log := [] |}.

End AgenticPipeline.

(** ** The vocabulary of the specification *)

Module Spec.

(** The base drug-likeness descriptor of a descriptor mapping, [0.0] when
    the mapping has none. *)
Definition baseDrugLikeness (D : gmap string num) : num :=
  match D !! "qed" with
  | Some q => q
  | None => Float 0
  end.

(** A number in the range of binary64, and its binary64 value. *)
Definition in_range (v : num) : Prop :=
  match v with
  | Int z => Z.abs z < FLOAT_LIMIT
  | Float _ => True
  end.

Definition value (v : num) : float :=
  match v with
  | Int z => float_of_int z
  | Float f => f
  end.

(** [round(baseDrugLikeness - penalty * violationCount, 4)] in binary64. *)
Definition score_formula (base : num) (violationCount : Z) (penalty : float) : float :=
  Py.round (value base - penalty * float_of_int violationCount)%float 4.

(** A rule of the table is violated by [D] when [D] has the descriptor and
    its value is strictly above the bound. *)
Definition exceeds (D : gmap string num) (entry : string * MoleculeScreening.rule) : bool :=
  match D !! entry.1 with
  | Some v => gt_int v (MoleculeScreening.rule_max entry.2)
  | None => false
  end.

Definition violated (D : gmap string num) : list (string * MoleculeScreening.rule) :=
  List.filter (exceeds D) MoleculeScreening.RULES.

(** A list ordered by key, best first. *)
Definition descending {A} (key : A -> float) (l : list A) : Prop :=
  StronglySorted (fun a b => (key b <=? key a)%float = true) l.

(** No key of the list is [nan]. *)
Definition comparable {A} (key : A -> float) (l : list A) : Prop :=
  Forall (fun a => is_nan (key a) = false) l.

(** The elements of [l] whose key equals [s], in the order of [l]. *)
Definition with_key {A} (key : A -> float) (s : float) (l : list A) : list A :=
  List.filter (fun a => (key a =? s)%float) l.

End Spec.

(** ** Order keys of binary64 values

    The comparisons of the primitive floats are specified on [spec_float];
    away from [nan] they are the lexicographic order of the triple
    (class, exponent, mantissa) computed by [sf_key]. *)

Definition sf_key (x : spec_float) : Z * Z * Z :=
  match x with
  | S754_infinity true => (-2, 0, 0)
  | S754_finite true m e => (-1, - e, - Z.pos m)
  | S754_zero _ => (0, 0, 0)
  | S754_nan => (0, 0, 0)
  | S754_finite false m e => (1, e, Z.pos m)
  | S754_infinity false => (2, 0, 0)
  end.

Definition key_compare (a b : Z * Z * Z) : comparison :=
  let '(a1, a2, a3) := a in
  let '(b1, b2, b3) := b in
  match a1 ?= b1 with
  | Eq => match a2 ?= b2 with Eq => a3 ?= b3 | c => c end
  | c => c
  end.

Definition key_lt (a b : Z * Z * Z) : Prop :=
  a.1.1 < b.1.1 \/ (a.1.1 = b.1.1 /\ (a.1.2 < b.1.2 \/ (a.1.2 = b.1.2 /\ a.2 < b.2))).

Definition fkey (x : float) : Z * Z * Z := sf_key (Prim2SF x).

(** ** The rounds of a run as the specification describes them *)

Module Rounds.
Import AgenticPipeline.

(** The admission filter of the plan. *)
Definition screening (plan : PlannerAgent.t) : MoleculeScreening.t :=
  {| MoleculeScreening.max_violations := PlannerAgent.max_violations plan |}.

(** The evaluated candidate of a structure that the oracle finds valid, with
    its descriptors, its violation data and its score; [None] for a
    structure that has no valid evaluation, or no score. *)
Definition evaluated (tool : chemistry_tool) (plan : PlannerAgent.t)
    (round_num : Z) (smiles : string) : option mol :=
  match tool smiles with
  | Ok result =>
      if pr_valid result then
        match pr_properties result with
        | Some D =>
            let sr := MoleculeScreening.screen (screening plan) D in
            match MoleculeScreening.score D sr (PlannerAgent.scoring_penalty plan) with
            | Ok score =>
                Some {| mol_smiles := smiles;
                        mol_valid := true;
                        mol_round := round_num;
                        mol_properties := D;
                        mol_screening_result := sr;
                        mol_score := score;
                        mol_rank := None |}
            | Raise _ => None
            end
        | None => None
        end
      else None
  | Raise _ => None
  end.

Definition passedAdmission (m : mol) : bool :=
  MoleculeScreening.passed (mol_screening_result m).


(** The admitted candidates of a round: the valid ones that pass the
    admission filter, in the order of the candidates. *)
Definition admitted (tool : chemistry_tool) (plan : PlannerAgent.t)
    (round_num : Z) (candidates : list string) : list mol :=
  List.filter passedAdmission (omap (evaluated tool plan round_num) candidates).

(** A molecule before the last phase of the run gives it a rank. *)
Definition unranked (m : mol) : mol :=
  {| mol_smiles := mol_smiles m; mol_valid := mol_valid m;
     mol_round := mol_round m; mol_properties := mol_properties m;
     mol_screening_result := mol_screening_result m;
     mol_score := mol_score m; mol_rank := None |}.

(** The arguments that round [round_num] passes to the generator and to the
    ranker. *)
Definition gen_context (plan : PlannerAgent.t) (round_num : Z) (seed : list string)
  : GeneratorAgent.context :=
  {| GeneratorAgent.n_candidates := Some (PlannerAgent.candidates_per_round plan);
     GeneratorAgent.round_num := Some round_num;
     GeneratorAgent.seed_molecules := Some seed |}.

Definition rank_context (plan : PlannerAgent.t) (processed : list mol)
  : RankerAgent.context :=
  {| RankerAgent.molecules := Some processed;
     RankerAgent.scoring_penalty := Some (PlannerAgent.scoring_penalty plan);
     RankerAgent.top_k := Some (PlannerAgent.top_k plan) |}.

(** The record of a round agrees with the generator, the oracle and the
    ranker, for the elite set [seed] that the round received. *)
Definition round_sound (tool : chemistry_tool) (plan : PlannerAgent.t)
    (seed : list mol) (r : round_log) : Prop :=
  rl_seed r = map mol_smiles seed
  /\ len seed <= Z.max 0 (PlannerAgent.candidates_per_round plan)
  /\ (exists g out g',
        GeneratorAgent.act "generator" (gen_context plan (rl_round r) (rl_seed r)) g
          = (Ok out, g')
        /\ GeneratorAgent.candidates out = rl_candidates r)
  /\ (exists valid_count,
        process_molecules tool (screening plan) (PlannerAgent.scoring_penalty plan)
          (rl_round r) (rl_candidates r) [] 0 = Ok (rl_processed r, valid_count))
  /\ (exists rank_result,
        RankerAgent.act "ranker" (rank_context plan (rl_processed r)) = Ok rank_result
        /\ rl_ranked r = RankerAgent.ranked_molecules rank_result
        /\ rl_top r = RankerAgent.top_molecules rank_result).

(** The records of consecutive rounds [round_nums], the first of which
    received the elite set [seed]. *)
Fixpoint log_sound (tool : chemistry_tool) (plan : PlannerAgent.t)
    (seed : list mol) (round_nums : list Z) (l : list round_log) : Prop :=
  match l, round_nums with
  | [], _ => True
  | r :: l', k :: round_nums' =>
      rl_round r = k /\ round_sound tool plan seed r
      /\ log_sound tool plan (rl_top r) round_nums' l'
  | _ :: _, [] => False
  end.

(** The elite set after the rounds of [l], starting from [seed]. *)
Definition last_top (seed : list mol) (l : list round_log) : list mol :=
  match last l with
  | Some r => rl_top r
  | None => seed
  end.

(** The run up to and including round [k], with the tool that the factory
    returned. *)
Definition rounds_before (tool : chemistry_tool) (parameters : PlannerAgent.context)
    (k : Z) : M world (list mol * list mol) :=
  start_run;;
  plan ← plan_run parameters;
  run_rounds tool plan (screening plan) (seqZ 1 k) [] [].

End Rounds.

(** ** Concrete runs

    Small oracles, plans and random streams on which the definitions above
    can be evaluated. *)

Module Examples.
Import AgenticPipeline Rounds.

(** Streams of draws: two regular ones, and one that is given by the list
    of its first draws. *)
Definition zeros : rng := fun _ => O.
Definition sevens : rng := fun i => (i * 7 + 3)%nat.
Definition drawn (draws : list nat) : rng := fun i => nth i draws O.
Definition draws : rng := drawn [1; 4; 2; 3; 0; 2; 4; 1]%nat.

(** Three descriptors, which depend on the length of the structure string
    only: a string of 24 or 25 characters violates the rule of tpsa, a
    longer one the rule of mw too. *)
Definition descriptors (smiles : string) : gmap string num :=
  let size := float_of_int (Z.of_nat (String.length smiles)) in
  <["mw" := Float (size * 20)%float]>
    (<["tpsa" := Float (size * 6)%float]>
       (<["qed" := Float (size / 64)%float]> ∅)).

Definition valid_result (smiles : string) : process_result :=
  {| pr_smiles := smiles; pr_valid := true;
     pr_properties := Some (descriptors smiles); pr_error := None |}.

Definition invalid_result (smiles : string) (error : string) : process_result :=
  {| pr_smiles := smiles; pr_valid := false;
     pr_properties := None; pr_error := Some error |}.

(** An oracle that returns for every structure: an error result for the
    structures with a nitrogen, descriptors for the others. *)
Definition tool : chemistry_tool := fun smiles =>
  if contains "N" smiles
  then Ok (invalid_result smiles "Failed to compute properties")
  else Ok (valid_result smiles).


(** Oracles that throw for every structure, with and without a text. *)
Definition unreachable : chemistry_tool := fun _ => Raise "oracle unreachable".
Definition silent : chemistry_tool := fun _ => Raise "".

(** An oracle that returns an integer far outside the range of binary64 as
    the drug-likeness of every structure. *)
Definition huge : chemistry_tool := fun smiles =>
  Ok {| pr_smiles := smiles; pr_valid := true;
        pr_properties := Some (<["qed" := Int (2 ^ 1024)]> ∅); pr_error := None |}.

Definition parameters (rounds n top_k : Z) : PlannerAgent.context :=
  {| PlannerAgent.ctx_rounds := Some rounds;
     PlannerAgent.ctx_candidates_per_round := Some n;
     PlannerAgent.ctx_top_k := Some top_k;
     PlannerAgent.ctx_max_violations := Some 1;
     PlannerAgent.ctx_scoring_penalty := Some 0.1%float |}.

(** A run of two rounds with six candidates each and an elite of two.  Of
    the candidates of its first round two are invalid, one fails admission
    with two violations, one is admitted with one violation and two are
    admitted with none. *)
Definition two_rounds : result outcome * world :=
  run (Ok tool) (parameters 2 6 2) (queued draws).

Definition final : list mol :=
  match two_rounds.1 with
  | Ok (Completed molecules _) => molecules
  | _ => []
  end.

Definition no_round : round_log :=
  {| rl_round := 0; rl_seed := []; rl_candidates := []; rl_processed := [];
     rl_ranked := []; rl_top := [] |}.

Definition first_round : round_log := default no_round (log two_rounds.2 !! 0%nat).
Definition second_round : round_log := default no_round (log two_rounds.2 !! 1%nat).

(** Three molecules for the ranker, two of them with one and the same
    score: the admitted candidates of three structures. *)
Definition three : list mol :=
  admitted tool (resolve_plan (parameters 2 6 2)) 1 ["CCO"; "c1ccccc1"; "CCC"].

(** The state in which the first round starts, and its candidates. *)
Definition before_first (tool : chemistry_tool) : result (list mol * list mol) * world :=
  rounds_before tool (parameters 2 6 2) 0 (queued draws).

Definition first_candidates : result GeneratorAgent.output * rng :=
  GeneratorAgent.act "generator"
    (gen_context (resolve_plan (parameters 2 6 2)) 1 []) draws.

Definition first_output : GeneratorAgent.output :=
  match first_candidates.1 with
  | Ok out => out
  | Raise _ =>
      {| GeneratorAgent.candidates := []; GeneratorAgent.agent := "";
         GeneratorAgent.round := 0 |}
  end.

(** A toolkit on structure strings: the parser rejects the empty string
    and throws for a string with a dot; sanitization throws for a string
    with the letter [X]; the descriptors are those of [descriptors]. *)
Definition rdkit : RDKitTool.toolkit :=
  {| RDKitTool.Mol := string;
     RDKitTool.MolFromSmiles := fun smiles =>
       if contains "." smiles then Raise "parse error"
       else Ok (if truthy smiles then Some smiles else None);
     RDKitTool.SanitizeMol := fun mol =>
       if contains "X" mol then Raise "sanitization failed" else Ok mol;
     RDKitTool.MolWt := fun mol =>
       Ok (float_of_int (Z.of_nat (String.length mol)) * 20)%float;
     RDKitTool.MolLogP := fun mol => Ok 1.5%float;
     RDKitTool.NumHDonors := fun mol => Ok 1;
     RDKitTool.NumHAcceptors := fun mol => Ok 2;
     RDKitTool.TPSA := fun mol =>
       Ok (float_of_int (Z.of_nat (String.length mol)) * 6)%float;
     RDKitTool.NumRotatableBonds := fun mol => Ok 3;
     RDKitTool.qed := fun mol =>
       Ok (float_of_int (Z.of_nat (String.length mol)) / 64)%float |}.

End Examples.

(** * Properties *)

(** ** The admission filter *)

Section Screening.
Import MoleculeScreening.

(** The test [if max_val and ...] skips a bound of zero; the table has
    none. *)
Lemma RULES_bounds_nonzero : Forall (fun entry => rule_max entry.2 <> 0) RULES.
Proof. repeat constructor; discriminate. Qed.

Lemma check_rule_exceeds D acc entry :
  rule_max entry.2 <> 0 ->
  check_rule D acc entry =
    acc ++ (if Spec.exceeds D entry then [rule_name entry.2] else []).
Proof.
  destruct entry as [prop rule]. unfold check_rule, Spec.exceeds. cbn.
  intros Hmax. apply Z.eqb_neq in Hmax. rewrite Hmax. cbn.
  destruct (D !! prop) as [v|]; [|by rewrite app_nil_r].
  destruct (gt_int v (rule_max rule)); [done|by rewrite app_nil_r].
Qed.

Lemma foldl_check_rule D rules acc :
  Forall (fun entry => rule_max entry.2 <> 0) rules ->
  foldl (check_rule D) acc rules =
    acc ++ map (fun entry => rule_name entry.2) (List.filter (Spec.exceeds D) rules).
Proof.
  intros Hrules. revert acc.
  induction Hrules as [|entry rules Hentry _ IH]; intros acc; cbn.
  - by rewrite app_nil_r.
  - rewrite IH, check_rule_exceeds by done.
    destruct (Spec.exceeds D entry); cbn; by rewrite <- ?app_assoc, ?app_nil_r.
Qed.

Lemma screen_violated_rules self D :
  violated_rules (screen self D) = map (fun entry => rule_name entry.2) (Spec.violated D).
Proof.
  change (violated_rules (screen self D)) with (foldl (check_rule D) [] RULES).
  by rewrite foldl_check_rule by apply RULES_bounds_nonzero.
Qed.

Lemma filter_length_le {A} (f : A -> bool) (l : list A) :
  (length (List.filter f l) <= length l)%nat.
Proof. induction l as [|x l IH]; cbn; [lia|]. destruct (f x); cbn; lia. Qed.

(** C3.  For every descriptor mapping [D] and every bound [max_violations]:
    the violation count of [screen] is the number of the five rules of the
    table (upper bounds 500, 5, 5, 10 and 140 on mw, logp, hbd, hba and
    tpsa) whose descriptor is present in [D] with a value strictly above
    the bound; a rule whose descriptor is absent from [D] is not among the
    violated rules; [passed] holds exactly when the count is at most
    [max_violations]; and the names of the violated rules are listed in
    the order of the table. *)
Theorem screen_counts_strict_violations (self : t) (D : gmap string num) :
  map (fun entry => (entry.1, rule_max entry.2)) RULES
    = [("mw", 500); ("logp", 5); ("hbd", 5); ("hba", 10); ("tpsa", 140)]
  /\ violations (screen self D) = len (Spec.violated D)
  /\ 0 <= violations (screen self D) <= 5
  /\ violated_rules (screen self D)
       = map (fun entry => rule_name entry.2) (Spec.violated D)
  /\ (forall entry, entry ∈ RULES -> D !! entry.1 = None ->
        Spec.exceeds D entry = false /\
        rule_name entry.2 ∉ violated_rules (screen self D))
  /\ (passed (screen self D) = true <-> violations (screen self D) <= max_violations self).
Proof.
  assert (Hcount : violations (screen self D) = len (Spec.violated D)).
  { change (violations (screen self D)) with (len (violated_rules (screen self D))).
    rewrite screen_violated_rules. unfold len. by rewrite length_map. }
  split; [reflexivity|]. split; [exact Hcount|]. split.
  { rewrite Hcount. unfold len, Spec.violated.
    pose proof (filter_length_le (Spec.exceeds D) RULES) as Hle.
    change (length RULES) with 5%nat in Hle. lia. }
  split; [apply screen_violated_rules|]. split.
  - intros entry Hin Habs.
    assert (Hex : Spec.exceeds D entry = false).
    { unfold Spec.exceeds. by rewrite Habs. }
    split; [exact Hex|].
    rewrite screen_violated_rules. intros Hname.
    apply list_elem_of_fmap in Hname as (entry' & Heq & Hin').
    apply list_elem_of_In, filter_In in Hin' as [Hin' Hex'].
    assert (entry' = entry) as ->; [|congruence].
    apply list_elem_of_In in Hin'.
    clear -Hin Hin' Heq.
    repeat (apply elem_of_cons in Hin as [->|Hin]);
      repeat (apply elem_of_cons in Hin' as [->|Hin']);
      try done; try (by apply elem_of_nil in Hin); by apply elem_of_nil in Hin'.
  - unfold screen. cbn. apply Z.leb_le.
Qed.
End Screening.

(** ** The scoring formula *)

Section Scoring.
Import MoleculeScreening.

Lemma int_to_float_in_range z :
  Z.abs z < FLOAT_LIMIT -> int_to_float z = Ok (float_of_int z).
Proof. intros Hz%Z.ltb_lt. unfold int_to_float. by rewrite Hz. Qed.

Lemma int_to_float_overflow z :
  FLOAT_LIMIT <= Z.abs z -> int_to_float z = Raise "int too large to convert to float".
Proof. intros Hz%Z.ltb_ge. unfold int_to_float. by rewrite Hz. Qed.

Lemma to_float_in_range v : Spec.in_range v -> to_float v = Ok (Spec.value v).
Proof. destruct v as [z|f]; [apply int_to_float_in_range|done]. Qed.

Lemma to_float_overflow v :
  ~ Spec.in_range v -> to_float v = Raise "int too large to convert to float".
Proof.
  destruct v as [z|f]; cbn; [|tauto]. intros Hz. apply int_to_float_overflow. lia.
Qed.

(** The limit is where the nearest binary64 value stops being finite: below
    it the conversion gives the largest binary64 value, from it on an
    infinity. *)
Lemma FLOAT_LIMIT_boundary :
  Prim2SF (float_of_int (FLOAT_LIMIT - 1)) = S754_finite false (2 ^ 53 - 1) 971
  /\ Prim2SF (float_of_int (1 - FLOAT_LIMIT)) = S754_finite true (2 ^ 53 - 1) 971
  /\ float_of_int FLOAT_LIMIT = infinity
  /\ float_of_int (- FLOAT_LIMIT) = neg_infinity.
Proof. repeat split; vm_compute; reflexivity. Qed.

(** The three steps of [score]: the product, the difference, the
    rounding. *)
Lemma score_unfold D sr penalty :
  score D sr penalty
    = match int_to_float (violations sr) with
      | Ok v =>
          match to_float (Spec.baseDrugLikeness D) with
          | Ok q => Ok (Py.round (q - penalty * v)%float 4)
          | Raise e => Raise e
          end
      | Raise e => Raise e
      end.
Proof.
  unfold score, Spec.baseDrugLikeness, float_mul_int, num_sub_float.
  destruct (int_to_float (violations sr)) as [v|e]; [|done]. cbn.
  by destruct (D !! "qed") as [q|]; cbn; [destruct (to_float q)|].
Qed.

Lemma score_in_range D sr penalty :
  Z.abs (violations sr) < FLOAT_LIMIT -> Spec.in_range (Spec.baseDrugLikeness D) ->
  score D sr penalty
    = Ok (Spec.score_formula (Spec.baseDrugLikeness D) (violations sr) penalty).
Proof.
  intros Hv Hq. by rewrite score_unfold, int_to_float_in_range, to_float_in_range.
Qed.

Lemma score_overflow D sr penalty :
  FLOAT_LIMIT <= Z.abs (violations sr) \/ ~ Spec.in_range (Spec.baseDrugLikeness D) ->
  score D sr penalty = Raise "int too large to convert to float".
Proof.
  intros Hcase. rewrite score_unfold.
  destruct (Z.lt_ge_cases (Z.abs (violations sr)) FLOAT_LIMIT) as [Hv|Hv].
  - destruct Hcase as [?|Hq]; [lia|].
    by rewrite int_to_float_in_range, to_float_overflow.
  - by rewrite int_to_float_overflow.
Qed.



(** The edge case of the specification, evaluated in binary64: the
    difference [0.55 - 0.1 * 1] is [0.45000000000000007], and rounding it
    to four places gives the float [0.45]. *)
Lemma score_edge_case :
  (0.55 - 0.1 * float_of_int 1)%float = 0.45000000000000007%float
  /\ Spec.score_formula (Float 0.55) 1 0.1 = 0.45%float.
Proof. split; vm_compute; reflexivity. Qed.

(** C2.  For every descriptor mapping [D], every violation count [v] and
    every penalty [p]: the base drug-likeness is the descriptor ["qed"] of
    [D], and [0.0] when [D] has none; when [v] and the base drug-likeness
    are in the range of binary64 (as every float is, and every integer
    below [2^1024 - 2^970] in absolute value, so every count from 0 to 5),
    [score] returns [round(baseDrugLikeness - p * v, 4)], computed in
    binary64; when [v] or an integer base drug-likeness is outside that
    range, [score] raises [OverflowError] instead of returning; the range
    ends where the nearest binary64 value of an integer stops being finite;
    for a base drug-likeness of 0.55, a penalty of 0.1 and one violation
    the difference is 0.45000000000000007 and the score is the float 0.45;
    and the ranker computes the score of a molecule with these descriptors
    and this count as [score] does. *)
Theorem score_is_rounded_difference
    (D : gmap string num) (v : Z) (p : float) (ok : bool) (names : list string) :
  let sr := {| passed := ok; violations := v; violated_rules := names |} in
  let base := Spec.baseDrugLikeness D in
  (forall q, D !! "qed" = Some q -> base = q)
  /\ (D !! "qed" = None -> base = Float 0)
  /\ (Z.abs v < FLOAT_LIMIT -> Spec.in_range base ->
        score D sr p = Ok (Py.round (Spec.value base - p * float_of_int v)%float 4))
  /\ (0 <= v <= 5 -> forall q, base = Float q ->
        score D sr p = Ok (Py.round (q - p * float_of_int v)%float 4))
  /\ (FLOAT_LIMIT <= Z.abs v \/ ~ Spec.in_range base ->
        score D sr p = Raise "int too large to convert to float")
  /\ (Prim2SF (float_of_int (FLOAT_LIMIT - 1)) = S754_finite false (2 ^ 53 - 1) 971
      /\ float_of_int FLOAT_LIMIT = infinity)
  /\ (0.55 - 0.1 * float_of_int 1)%float = 0.45000000000000007%float
  /\ score (<["qed" := Float 0.55]> D)
           {| passed := ok; violations := 1; violated_rules := names |} 0.1
     = Ok 0.45%float
  /\ (forall m, mol_properties m = D -> mol_screening_result m = sr ->
        RankerAgent._calculate_score m p = score D sr p).
Proof.
  intros sr base.
  split. { intros q Hq. unfold base, Spec.baseDrugLikeness. by rewrite Hq. }
  split. { intros Hq. unfold base, Spec.baseDrugLikeness. by rewrite Hq. }
  split. { intros Hv Hq. by rewrite score_in_range. }
  split.
  { intros Hv q Hq. rewrite score_in_range.
    - unfold Spec.score_formula. fold base. by rewrite Hq.
    - cbn. unfold FLOAT_LIMIT. lia.
    - fold base. by rewrite Hq. }
  split. { exact (score_overflow D sr p). }
  split. { split; apply FLOAT_LIMIT_boundary. }
  split; [apply score_edge_case|].
  split.
  - rewrite score_in_range.
    + unfold Spec.baseDrugLikeness. rewrite lookup_insert_eq.
      exact (f_equal Ok (proj2 score_edge_case)).
    + cbn. unfold FLOAT_LIMIT. lia.
    + unfold Spec.baseDrugLikeness. by rewrite lookup_insert_eq.
  - by intros m <- <-.
Qed.
End Scoring.

(** ** Comparing binary64 values *)

Section FloatOrder.

Lemma SFcompare_key x y :
  x <> S754_nan -> y <> S754_nan ->
  SFcompare x y = Some (key_compare (sf_key x) (sf_key y)).
Proof.
  intros Hx Hy.
  destruct x as [[]|[]| |[] mx ex], y as [[]|[]| |[] my ey];
    try congruence; try reflexivity; cbn [SFcompare sf_key key_compare];
    rewrite Pos.compare_cont_spec; cbn [Pos.switch_Eq]; f_equal.
  change (-1 ?= -1) with Eq. cbv iota.
  destruct (Z.compare_spec ex ey), (Z.compare_spec (- ex) (- ey)); try lia; try reflexivity.
  destruct (Pos.compare_spec mx my), (Z.compare_spec (- Z.pos mx) (- Z.pos my));
    try lia; try reflexivity.
Qed.

Lemma key_compare_Lt a b : key_compare a b = Lt <-> key_lt a b.
Proof.
  destruct a as [[a1 a2] a3], b as [[b1 b2] b3]. unfold key_lt. cbn.
  destruct (Z.compare_spec a1 b1), (Z.compare_spec a2 b2), (Z.compare_spec a3 b3);
    split; intros; try discriminate; try lia; try reflexivity.
Qed.

Lemma key_compare_Gt a b : key_compare a b = Gt <-> key_lt b a.
Proof.
  destruct a as [[a1 a2] a3], b as [[b1 b2] b3]. unfold key_lt. cbn.
  destruct (Z.compare_spec a1 b1), (Z.compare_spec a2 b2), (Z.compare_spec a3 b3);
    split; intros; try discriminate; try lia; try reflexivity.
Qed.

Lemma is_nan_false x : is_nan x = false <-> Prim2SF x <> S754_nan.
Proof.
  unfold is_nan. rewrite FloatAxioms.eqb_spec. unfold SFeqb.
  destruct (Prim2SF x) as [[]|[]| |[] m e]; cbn; try (split; congruence).
  all: rewrite Z.compare_refl, Pos.compare_cont_spec, Pos.compare_refl; cbn; split; congruence.
Qed.

Lemma ltb_key x y :
  is_nan x = false -> is_nan y = false ->
  (x <? y)%float = true <-> key_lt (fkey x) (fkey y).
Proof.
  intros Hx%is_nan_false Hy%is_nan_false.
  rewrite FloatAxioms.ltb_spec. unfold SFltb. rewrite SFcompare_key by assumption.
  rewrite <- key_compare_Lt. unfold fkey.
  destruct (key_compare _ _); split; congruence.
Qed.

Lemma leb_key x y :
  is_nan x = false -> is_nan y = false ->
  (x <=? y)%float = true <-> ~ key_lt (fkey y) (fkey x).
Proof.
  intros Hx%is_nan_false Hy%is_nan_false.
  rewrite FloatAxioms.leb_spec. unfold SFleb. rewrite SFcompare_key by assumption.
  rewrite <- key_compare_Gt. unfold fkey.
  destruct (key_compare _ _); split; congruence.
Qed.

Lemma eqb_true_not_nan x y :
  (x =? y)%float = true -> is_nan x = false /\ is_nan y = false.
Proof.
  rewrite !is_nan_false, FloatAxioms.eqb_spec. unfold SFeqb.
  destruct (Prim2SF x), (Prim2SF y); cbn; try discriminate; split; congruence.
Qed.

Lemma eqb_key x y :
  (x =? y)%float = true ->
  ~ key_lt (fkey x) (fkey y) /\ ~ key_lt (fkey y) (fkey x).
Proof.
  intros Heq. destruct (eqb_true_not_nan _ _ Heq) as [Hx%is_nan_false Hy%is_nan_false].
  revert Heq. rewrite FloatAxioms.eqb_spec. unfold SFeqb.
  rewrite SFcompare_key by assumption.
  rewrite <- key_compare_Lt, <- key_compare_Gt. unfold fkey.
  destruct (key_compare _ _); split; congruence.
Qed.

(** The facts about [<], [<=] and [==] that the sort relies on. *)

Lemma not_ltb_leb x y :
  is_nan x = false -> is_nan y = false ->
  (x <? y)%float = false -> (y <=? x)%float = true.
Proof.
  intros Hx Hy Hlt. apply leb_key; [done..|].
  intros Hk. apply (ltb_key x y Hx Hy) in Hk. congruence.
Qed.

Lemma ltb_leb x y :
  is_nan x = false -> is_nan y = false ->
  (x <? y)%float = true -> (x <=? y)%float = true.
Proof.
  intros Hx Hy Hlt%ltb_key; [|done..]. apply leb_key; [done..|].
  revert Hlt. unfold key_lt. lia.
Qed.

Lemma leb_trans x y z :
  is_nan x = false -> is_nan y = false -> is_nan z = false ->
  (x <=? y)%float = true -> (y <=? z)%float = true -> (x <=? z)%float = true.
Proof.
  intros Hx Hy Hz Hxy%leb_key Hyz%leb_key; [|done..]. apply leb_key; [done..|].
  revert Hxy Hyz. unfold key_lt. lia.
Qed.

Lemma ltb_same_key x y s :
  (x =? s)%float = true -> (y =? s)%float = true -> (x <? y)%float = false.
Proof.
  intros Hxs Hys.
  destruct (eqb_true_not_nan _ _ Hxs) as [Hx _], (eqb_true_not_nan _ _ Hys) as [Hy _].
  apply eqb_key in Hxs as [Hxs Hsx]. apply eqb_key in Hys as [Hys Hsy].
  destruct (x <? y)%float eqn:Hlt; [|done].
  apply ltb_key in Hlt; [|done..].
  exfalso. revert Hxs Hsx Hys Hsy Hlt. unfold key_lt. lia.
Qed.

End FloatOrder.

(** ** The stable sort *)

Section SortedReverse.
Context {A : Type} (key : A -> float).

Lemma insert_desc_perm x l : insert_desc key x l ≡ₚ x :: l.
Proof.
  induction l as [|y l IH]; cbn; [done|].
  destruct (key x <? key y)%float; [|done].
  rewrite IH. apply Permutation_swap.
Qed.

Lemma sorted_reverse_perm l : sorted_reverse key l ≡ₚ l.
Proof.
  induction l as [|x l IH]; cbn; [done|].
  fold (sorted_reverse key l). by rewrite insert_desc_perm, IH.
Qed.

Lemma sorted_reverse_length l : length (sorted_reverse key l) = length l.
Proof. apply Permutation_length, sorted_reverse_perm. Qed.

Lemma insert_desc_descending x l :
  is_nan (key x) = false -> Spec.comparable key l ->
  Spec.descending key l -> Spec.descending key (insert_desc key x l).
Proof.
  unfold Spec.descending, Spec.comparable. intros Hx Hnan Hsorted.
  induction Hsorted as [|y l Hsorted IH Hy]; cbn.
  - repeat constructor.
  - apply Forall_cons in Hnan as [Hny Hnan].
    destruct (key x <? key y)%float eqn:Hlt.
    + constructor; [by apply IH|].
      rewrite insert_desc_perm. constructor; [|done].
      by apply ltb_leb.
    + assert (Hyx : (key y <=? key x)%float = true) by by apply not_ltb_leb.
      constructor; [by constructor|].
      constructor; [done|].
      rewrite Forall_forall in Hy, Hnan. apply Forall_forall. intros z Hz.
      apply (leb_trans _ (key y)); auto.
Qed.

Lemma sorted_reverse_descending l :
  Spec.comparable key l -> Spec.descending key (sorted_reverse key l).
Proof.
  unfold Spec.comparable. induction 1 as [|x l Hx Hnan IH]; cbn.
  - constructor.
  - fold (sorted_reverse key l). apply insert_desc_descending; [done| |done].
    unfold Spec.comparable. by rewrite sorted_reverse_perm.
Qed.

Lemma insert_desc_with_key s x l :
  Spec.with_key key s (insert_desc key x l) = Spec.with_key key s (x :: l).
Proof.
  unfold Spec.with_key.
  induction l as [|y l IH]; [done|].
  cbn [insert_desc]. destruct (key x <? key y)%float eqn:Hlt; [|done].
  cbn [List.filter] in *. rewrite IH.
  destruct (key x =? s)%float eqn:Hxs, (key y =? s)%float eqn:Hys; try done.
  by rewrite (ltb_same_key _ _ _ Hxs Hys) in Hlt.
Qed.

(** Stability: the elements with one and the same key keep the order of the
    input. *)
Lemma sorted_reverse_with_key s l :
  Spec.with_key key s (sorted_reverse key l) = Spec.with_key key s l.
Proof.
  induction l as [|x l IH]; [done|].
  cbn [sorted_reverse foldr]. fold (sorted_reverse key l).
  rewrite insert_desc_with_key. unfold Spec.with_key in *. cbn. by rewrite IH.
Qed.

(** A list that is already in descending order is left as it is. *)
Lemma insert_desc_head x l :
  Forall (fun y => (key x <? key y)%float = false) l -> insert_desc key x l = x :: l.
Proof. intros Hl. destruct Hl as [|y l Hy _]; cbn; [done|]. by rewrite Hy. Qed.

End SortedReverse.

(** ** The ranker *)

Section Ranker.
Import RankerAgent.

Lemma slice_to_min {A} (l : list A) (k : Z) : slice_to l k = slice_to l (Z.min k (len l)).
Proof.
  unfold slice_to, len. destruct (Z.leb_spec 0 k) as [Hk|Hk].
  - destruct (Z.leb_spec 0 (Z.min k (Z.of_nat (length l)))) as [_|Hm]; [|lia].
    destruct (Z.le_ge_cases k (Z.of_nat (length l))) as [Hle|Hge].
    + by rewrite Z.min_l.
    + rewrite Z.min_r, Nat2Z.id, !firstn_all2; [done|lia..].
  - rewrite Z.min_l by lia. destruct (Z.leb_spec 0 k); [lia|done].
Qed.

Lemma slice_to_prefix {A} (l : list A) (k : Z) : slice_to l k `prefix_of` l.
Proof. unfold slice_to. destruct (0 <=? k); apply prefix_take. Qed.

Lemma slice_to_length_le {A} (l : list A) (k : Z) : (length (slice_to l k) <= length l)%nat.
Proof. apply prefix_length, slice_to_prefix. Qed.

Lemma with_score_same m : with_score m (mol_score m) = m.
Proof. by destruct m. Qed.

(** The scoring loop returns when every score can be computed, and then
    each molecule has the score computed for it. *)
Lemma score_molecules_scored penalty molecules scores acc :
  Forall2 (fun m s => _calculate_score m penalty = Ok s) molecules scores ->
  score_molecules molecules penalty acc = Ok (acc ++ zip_with with_score molecules scores).
Proof.
  intros Hscores. revert acc.
  induction Hscores as [|m s molecules scores Hm _ IH]; intros acc; cbn.
  - by rewrite app_nil_r.
  - rewrite Hm. cbn. rewrite IH, <- app_assoc. done.
Qed.

(** The scoring loop raises what the first score that cannot be computed
    raises. *)
Lemma score_molecules_raises penalty done m rest scores acc e :
  Forall2 (fun m s => _calculate_score m penalty = Ok s) done scores ->
  _calculate_score m penalty = Raise e ->
  score_molecules (done ++ m :: rest) penalty acc = Raise e.
Proof.
  intros Hscores Hm. revert acc.
  induction Hscores as [|m0 s done scores Hm0 _ IH]; intros acc; cbn.
  - by rewrite Hm.
  - rewrite Hm0. cbn. apply IH.
Qed.

Lemma scored_scores (molecules : list mol) (scores : list float) :
  length molecules = length scores ->
  map mol_score (zip_with with_score molecules scores) = scores.
Proof.
  revert scores. induction molecules as [|m molecules IH]; intros [|s scores]; cbn;
    try done. intros [= Hlen]. by rewrite IH.
Qed.

Lemma rescore_consistent penalty molecules :
  Forall (fun m => _calculate_score m penalty = Ok (mol_score m)) molecules ->
  Forall2 (fun m s => _calculate_score m penalty = Ok s) molecules (map mol_score molecules)
  /\ zip_with with_score molecules (map mol_score molecules) = molecules.
Proof.
  induction 1 as [|m l Hm _ [IH1 IH2]]; cbn; [done|].
  split; [by constructor|]. by rewrite IH2, with_score_same.
Qed.

Lemma act_scored name molecules penalty topK scores :
  Forall2 (fun m s => _calculate_score m penalty = Ok s) molecules scores ->
  let ranked := sorted_reverse mol_score (zip_with with_score molecules scores) in
  act name {| RankerAgent.molecules := Some molecules; scoring_penalty := Some penalty;
              top_k := Some topK |}
    = Ok {| ranked_molecules := ranked;
            top_molecules := slice_to ranked topK;
            agent := name;
            n_ranked := len ranked;
            n_top := len (slice_to ranked topK) |}.
Proof.
  intros Hscores ranked. unfold act.
  cbn [RankerAgent.molecules scoring_penalty top_k from_option id].
  by rewrite (score_molecules_scored _ _ _ [] Hscores).
Qed.

(** C5.  For every list of molecules whose scores the ranker can compute,
    every penalty and every [top_k]: the ranker returns; the ranked list
    consists of the input molecules, each with the score computed by the
    ranker, in descending order of that score; molecules with equal scores
    keep the order they have in the input; the elite list is the prefix
    [all[:min(top_k, len(all))]] of the ranked list, which for a [top_k]
    that is not negative is its first [min(top_k, len(all))] elements; the
    counts in the output are the lengths of the two lists; and when the
    scores of the input are the ones the ranker computes, as for every
    evaluated candidate, the ranked list is a rearrangement of the input
    itself.  The scores must not be [nan], which no order can place. *)
Theorem ranker_sorts_stably_and_takes_prefix
    (name : string) (input : list mol) (penalty : float) (topK : Z)
    (scores : list float) :
  Forall2 (fun m s => _calculate_score m penalty = Ok s) input scores ->
  Spec.comparable (fun s : float => s) scores ->
  exists out,
    act name {| molecules := Some input; scoring_penalty := Some penalty;
                top_k := Some topK |} = Ok out
    /\ let scored := zip_with with_score input scores in
       let all := ranked_molecules out in
       let elite := top_molecules out in
       all ≡ₚ scored
       /\ Spec.descending mol_score all
       /\ (forall s, Spec.with_key mol_score s all = Spec.with_key mol_score s scored)
       /\ elite = slice_to all (Z.min topK (len all))
       /\ elite `prefix_of` all
       /\ len all = len input
       /\ (0 <= topK ->
             elite = take (Z.to_nat topK) all /\ len elite = Z.min topK (len input))
       /\ n_ranked out = len all
       /\ n_top out = len elite
       /\ (map mol_score input = scores -> scored = input).
Proof.
  intros Hscores Hnan. eexists. split; [by apply act_scored|].
  cbn [ranked_molecules top_molecules n_ranked n_top]. cbv zeta.
  assert (Hlen : len (sorted_reverse mol_score (zip_with with_score input scores))
                   = len input).
  { unfold len. rewrite sorted_reverse_length, length_zip_with.
    apply Forall2_length in Hscores. lia. }
  split; [apply sorted_reverse_perm|].
  split.
  { apply sorted_reverse_descending. unfold Spec.comparable in *.
    assert (Hmap : Forall (fun s => is_nan s = false)
                     (map mol_score (zip_with with_score input scores))).
    { by rewrite scored_scores by by eapply Forall2_length. }
    by apply Forall_fmap in Hmap. }
  split; [intros s; apply sorted_reverse_with_key|].
  split; [apply slice_to_min|].
  split; [apply slice_to_prefix|].
  split; [exact Hlen|].
  split.
  { intros HtopK. unfold slice_to. destruct (Z.leb_spec 0 topK); [|lia].
    split; [done|]. rewrite <- Hlen. unfold len. rewrite length_take. lia. }
  split; [done|]. split; [done|].
  intros <-. clear. induction input as [|m input IH]; cbn; [done|].
  by rewrite IH, with_score_same.
Qed.

End Ranker.

(** ** Substring search and replacement *)

Section Strings.

Lemma append_nil (t : string) : "" +:+ t = t.
Proof. reflexivity. Qed.

Lemma append_cons c (p t : string) : String c p +:+ t = String c (p +:+ t).
Proof. reflexivity. Qed.

Lemma prefix_cons c d (p s : string) :
  String.prefix (String c p) (String d s)
    = if Ascii.ascii_dec c d then String.prefix p s else false.
Proof. reflexivity. Qed.

Lemma prefix_app (p s : string) :
  String.prefix p s = true <-> exists t, s = p +:+ t.
Proof.
  revert s. induction p as [|c p IH]; intros s.
  - split; [intros _; exists s; reflexivity|intros _; by destruct s].
  - destruct s as [|d s].
    { split; [done|]. intros [t Ht]. by rewrite append_cons in Ht. }
    rewrite prefix_cons. destruct (Ascii.ascii_dec c d) as [->|Hne].
    + rewrite IH. split; intros [t Ht]; exists t; rewrite append_cons in *; congruence.
    + split; [done|]. intros [t Ht]. rewrite append_cons in Ht. congruence.
Qed.

Lemma drop_chars_app (p t : string) : drop_chars (String.length p) (p +:+ t) = t.
Proof. induction p as [|c p IH]; cbn; [by destruct t|done]. Qed.

Lemma contains_here (old s : string) :
  String.prefix old s = true ->
  exists post, s = "" +:+ old +:+ post /\ drop_chars (String.length old) s = post.
Proof.
  intros [t ->]%prefix_app. exists t. split; [done|apply drop_chars_app].
Qed.

Lemma not_prefix_occurs c (old s pre post : string) :
  String.prefix old (String c s) = false ->
  String c s = pre +:+ old +:+ post ->
  exists pre', pre = String c pre' /\ s = pre' +:+ old +:+ post.
Proof.
  intros Hp Hs. destruct pre as [|d pre].
  - rewrite append_nil in Hs.
    assert (String.prefix old (String c s) = true) by (apply prefix_app; eauto).
    congruence.
  - rewrite append_cons in Hs. injection Hs as -> ->. eauto.
Qed.

Lemma contains_occurs (old s : string) :
  contains old s = true <-> exists pre post, s = pre +:+ old +:+ post.
Proof.
  induction s as [|c s IH]; cbn [contains].
  - destruct (String.prefix old "") eqn:Hp.
    + split; [|done]. intros _. apply contains_here in Hp as (post & Hs & _). eauto.
    + split; [done|]. intros (pre & post & Hs).
      destruct pre; [|by rewrite append_cons in Hs]. rewrite append_nil in Hs.
      assert (String.prefix old "" = true) by (apply prefix_app; eauto). congruence.
  - destruct (String.prefix old (String c s)) eqn:Hp.
    + split; [|done]. intros _. apply contains_here in Hp as (post & Hs & _). eauto.
    + rewrite IH. split.
      * intros (pre & post & ->). by exists (String c pre), post.
      * intros (pre & post & Hs).
        destruct (not_prefix_occurs _ _ _ _ _ Hp Hs) as (pre' & _ & ->). eauto.
Qed.

Lemma replace_first_leftmost (old new s : string) :
  contains old s = true ->
  exists pre post,
    s = pre +:+ old +:+ post
    /\ replace_first old new s = pre +:+ new +:+ post
    /\ forall pre' post', s = pre' +:+ old +:+ post' ->
         (String.length pre <= String.length pre')%nat.
Proof.
  induction s as [|c s IH]; cbn [contains replace_first].
  - destruct (String.prefix old "") eqn:Hp; [|done]. intros _.
    apply contains_here in Hp as (post & Hs & Hd). exists "", post.
    split; [done|]. split; [by rewrite Hd|cbn; lia].
  - destruct (String.prefix old (String c s)) eqn:Hp.
    + intros _. apply contains_here in Hp as (post & Hs & Hd). exists "", post.
      split; [done|]. split; [by rewrite Hd|cbn; lia].
    + intros Hc. destruct (IH Hc) as (pre & post & Hs & Hr & Hmin).
      exists (String c pre), post.
      split; [by rewrite append_cons, <- Hs|].
      split; [by rewrite append_cons, <- Hr|].
      intros pre' post' Hs'.
      destruct (not_prefix_occurs _ _ _ _ _ Hp Hs') as (pre'' & -> & Hs'').
      cbn. apply Hmin in Hs''. lia.
Qed.

End Strings.

(** ** Sequencing *)

Section Monad.
Context {S : Type}.

Lemma bind_Ok {A B} (m : M S A) (k : A -> M S B) s a s' :
  m s = (Ok a, s') -> (m ≫= k) s = k a s'.
Proof. intros H. unfold mbind, M_bind, Py.bind. by rewrite H. Qed.

Lemma bind_Raise {A B} (m : M S A) (k : A -> M S B) s e s' :
  m s = (Raise e, s') -> (m ≫= k) s = (Raise e, s').
Proof. intros H. unfold mbind, M_bind, Py.bind. by rewrite H. Qed.

Lemma ret_Ok {A} (a : A) (s : S) : (mret a : M S A) s = (Ok a, s).
Proof. reflexivity. Qed.

End Monad.

(** ** The candidate generator *)

Section Generator.
Import GeneratorAgent.

Lemma choice_Ok {A} (l : list A) (g : rng) :
  l <> [] -> exists x, choice l g = (Ok x, rng_tail g) /\ l !! (g O mod length l)%nat = Some x.
Proof.
  intros Hl. unfold choice.
  destruct (l !! (g O mod length l)%nat) as [x|] eqn:Hx; [eauto|].
  apply lookup_ge_None in Hx.
  assert (length l <> 0)%nat by (destruct l; cbn; [done|lia]).
  pose proof (Nat.mod_upper_bound (g O) (length l)). lia.
Qed.

Lemma apply_random_mutation_draw (smiles : string) (g : rng) :
  exists entry,
    MUTATIONS !! (g O mod 5)%nat = Some entry
    /\ _apply_random_mutation smiles g = (Ok (mutate_with entry smiles), rng_tail g).
Proof.
  destruct (choice_Ok MUTATIONS g) as (entry & Hc & Hentry); [done|].
  exists entry. split; [exact Hentry|].
  unfold _apply_random_mutation, try_except.
  by rewrite (bind_Ok _ _ _ _ _ Hc).
Qed.

(** C9.  One mutation step on a structure string makes one draw, which
    selects one position of the table of five (pattern, replacement) pairs,
    and each of the five pairs is the one selected when the draw is its
    position (that the draw is uniform is the contract of [random.choice],
    which the stream of draws stands for); the step never raises; when the
    pattern of the selected pair does not occur in the string, the string is
    returned unchanged; when it occurs, the result is the string with the
    leftmost occurrence of the pattern, and nothing else, replaced by the
    replacement. *)
Theorem mutation_replaces_leftmost_occurrence_once (smiles : string) (g : rng) :
  length MUTATIONS = 5%nat
  /\ (forall i entry, MUTATIONS !! i = Some entry -> g O = i ->
        _apply_random_mutation smiles g = (Ok (mutate_with entry smiles), rng_tail g))
  /\ exists old new result,
       MUTATIONS !! (g O mod 5)%nat = Some (old, new)
       /\ _apply_random_mutation smiles g = (Ok result, rng_tail g)
       /\ (((forall pre post, smiles <> pre +:+ old +:+ post) /\ result = smiles)
           \/ (exists pre post,
                 smiles = pre +:+ old +:+ post
                 /\ result = pre +:+ new +:+ post
                 /\ forall pre' post', smiles = pre' +:+ old +:+ post' ->
                      (String.length pre <= String.length pre')%nat)).
Proof.
  split; [reflexivity|].
  destruct (apply_random_mutation_draw smiles g) as ([old new] & Hentry & Hres).
  split.
  { intros i entry Hi Hg. rewrite Hres. rewrite Hg in Hentry.
    pose proof (lookup_lt_Some _ _ _ Hi) as Hlt. change (length MUTATIONS) with 5%nat in Hlt.
    rewrite Nat.mod_small in Hentry by done. congruence. }
  exists old, new, (mutate_with (old, new) smiles).
  split; [exact Hentry|]. split; [exact Hres|].
  unfold mutate_with. destruct (contains old smiles) eqn:Hc.
  - right. destruct (replace_first_leftmost old new smiles Hc) as (pre & post & H).
    by exists pre, post.
  - left. split; [|done]. intros pre post Hs.
    assert (contains old smiles = true) by (apply contains_occurs; eauto). congruence.
Qed.

End Generator.

(** ** The size of the generated list *)

Section GeneratorSize.
Import GeneratorAgent.

Ltac run_with H := unfold mbind, M_bind, Py.bind; rewrite H; cbv beta iota.

Lemma len_app {A} (l k : list A) : len (l ++ k) = len l + len k.
Proof. unfold len. rewrite length_app. lia. Qed.

Lemma len_nonneg {A} (l : list A) : 0 <= len l.
Proof. unfold len. lia. Qed.

Lemma slice_to_len {A} (l : list A) (n : Z) :
  0 <= n <= len l -> len (slice_to l n) = n.
Proof.
  unfold slice_to, len. intros Hn.
  destruct (Z.leb_spec 0 n); [|lia]. rewrite length_take. lia.
Qed.

Lemma prefix_of_take {A} (l1 l2 : list A) (k : nat) :
  l1 `prefix_of` l2 -> (length l1 <= k)%nat -> l1 `prefix_of` take k l2.
Proof.
  intros [t ->] Hk. rewrite take_app_ge by done. by apply prefix_app_r.
Qed.

Lemma apply_random_mutation_total (smiles : string) (g : rng) :
  exists result, _apply_random_mutation smiles g = (Ok result, rng_tail g).
Proof. destruct (apply_random_mutation_draw smiles g) as (entry & _ & H). eauto. Qed.

Lemma base_loop_total fuel n candidates g :
  exists result g', base_loop fuel n candidates g = (Ok result, g').
Proof.
  revert candidates g. induction fuel as [|fuel IH]; intros candidates g; cbn [base_loop].
  { eauto. }
  destruct (len candidates <? n); [|eauto].
  destruct (choice_Ok BASE_MOLECULES g) as (base & Hc & _); [done|].
  run_with Hc.
  destruct (len (if mem base candidates then candidates else candidates ++ [base]) <? n).
  - destruct (apply_random_mutation_total base (rng_tail g)) as (variant & Hv).
    rewrite Hv. cbv beta iota. apply IH.
  - apply IH.
Qed.

Lemma base_fill_reaches fuel n candidates g :
  n - len candidates <= Z.of_nat fuel ->
  exists result g', base_fill fuel n candidates g = (Ok result, g') /\ n <= len result.
Proof.
  revert candidates g. induction fuel as [|fuel IH]; intros candidates g Hfuel; cbn [base_fill].
  { exists candidates, g. split; [done|lia]. }
  destruct (Z.ltb_spec (len candidates) n) as [Hlt|Hge].
  - destruct (choice_Ok BASE_MOLECULES g) as (base & Hc & _); [done|].
    run_with Hc. apply IH. rewrite len_app. unfold len at 2. cbn. lia.
  - exists candidates, g. split; [done|lia].
Qed.

Lemma generate_base_candidates_len n g :
  exists result g',
    _generate_base_candidates n g = (Ok result, g') /\ len result = Z.max 0 n.
Proof.
  unfold _generate_base_candidates.
  destruct (Z.le_gt_cases 0 n) as [Hn|Hn].
  - destruct (base_loop_total (Z.to_nat (n * 5)) n [] g) as (c1 & g1 & H1).
    run_with H1.
    destruct (base_fill_reaches (Z.to_nat (n - len c1)) n c1 g1) as (c2 & g2 & H2 & Hlen);
      [lia|].
    rewrite H2. cbv beta iota. exists (slice_to c2 n), g2. split; [done|].
    rewrite slice_to_len; lia.
  - replace (Z.to_nat (n * 5)) with O by lia. cbn [base_loop].
    unfold mbind, M_bind, Py.bind, mret, M_ret, Py.ret.
    replace (Z.to_nat (n - len [])) with O by (unfold len; cbn; lia). cbn [base_fill].
    unfold mret, M_ret, Py.ret. exists (slice_to [] n), g. split; [done|].
    unfold slice_to, len. destruct (0 <=? n); rewrite take_nil; cbn; lia.
Qed.

Lemma mutate_loop_extends fuel seeds n attempts candidates g :
  seeds <> [] ->
  exists result g',
    mutate_loop fuel seeds n attempts candidates g = (Ok result, g')
    /\ candidates `prefix_of` result.
Proof.
  intros Hseeds. revert attempts candidates g.
  induction fuel as [|fuel IH]; intros attempts candidates g; cbn [mutate_loop].
  { by exists candidates, g. }
  destruct (len candidates <? n); [|by exists candidates, g].
  destruct (choice_Ok seeds g) as (seed & Hc & _); [done|].
  run_with Hc.
  destruct (apply_random_mutation_total seed (rng_tail g)) as (mutated & Hm).
  rewrite Hm. cbv beta iota.
  destruct (truthy mutated && (negb (mem mutated candidates) || (n * 2 <? attempts + 1))).
  - destruct (n <=? len (candidates ++ [mutated])).
    + eexists _, _. split; [reflexivity|]. by apply prefix_app_r.
    + destruct (IH (attempts + 1) (candidates ++ [mutated]) (rng_tail (rng_tail g)))
        as (r & g' & Hr & Hpre).
      exists r, g'. split; [done|]. etrans; [|exact Hpre]. by apply prefix_app_r.
  - apply IH.
Qed.

Lemma cycle_fill_reaches fuel n base_idx candidates :
  n - len candidates <= Z.of_nat fuel ->
  n <= len (cycle_fill fuel n base_idx candidates)
  /\ candidates `prefix_of` cycle_fill fuel n base_idx candidates.
Proof.
  revert base_idx candidates.
  induction fuel as [|fuel IH]; intros base_idx candidates Hfuel; cbn [cycle_fill].
  { split; [lia|done]. }
  destruct (Z.ltb_spec (len candidates) n) as [Hlt|Hge]; [|split; [lia|done]].
  match goal with |- context [cycle_fill fuel n (S base_idx) ?c] =>
    destruct (IH (S base_idx) c) as [Hlen Hpre] end.
  { rewrite len_app. unfold len at 2. cbn. lia. }
  split; [done|]. etrans; [|exact Hpre]. by apply prefix_app_r.
Qed.

Lemma generate_mutated_candidates_len seeds n g :
  seeds <> [] -> 0 <= n ->
  exists result g',
    _generate_mutated_candidates seeds n g = (Ok result, g')
    /\ len result = n
    /\ slice_to seeds (Z.min (len seeds) n) `prefix_of` result.
Proof.
  intros Hseeds Hn. unfold _generate_mutated_candidates.
  set (c0 := slice_to seeds (Z.min (len seeds) n)).
  assert (Hc0 : len c0 <= n).
  { unfold c0. rewrite slice_to_len; [lia|]. pose proof (len_nonneg seeds). lia. }
  destruct (mutate_loop_extends (Z.to_nat (n * 3)) seeds n 0 c0 g Hseeds)
    as (c1 & g1 & H1 & Hpre1).
  run_with H1.
  destruct (cycle_fill_reaches (Z.to_nat (n - len c1)) n 0 c1) as [Hlen Hpre2]; [lia|].
  eexists _, g1. split; [reflexivity|]. split.
  - rewrite slice_to_len; [done|]. split; [done|exact Hlen].
  - unfold slice_to at 1. destruct (Z.leb_spec 0 n); [|lia].
    apply prefix_of_take; [by etrans|]. unfold len in Hc0. lia.
Qed.

Lemma act_candidates name context g :
  let n := default 50 (n_candidates context) in
  let round_num := default 1 (round_num context) in
  let seeds := default [] (seed_molecules context) in
  0 <= n \/ round_num = 1 \/ seeds = [] ->
  exists out g',
    act name context g = (Ok out, g')
    /\ len (candidates out) = Z.max 0 n
    /\ (round_num <> 1 ->
        slice_to seeds (Z.min (len seeds) n) `prefix_of` candidates out).
Proof.
  intros n round_num seeds Hcase. unfold act.
  fold n round_num seeds.
  destruct ((round_num =? 1) || bool_decide (seeds = [])) eqn:Hbranch.
  - destruct (generate_base_candidates_len n g) as (r & g' & Hr & Hlen).
    run_with Hr. eexists _, g'. split; [reflexivity|]. split; [exact Hlen|].
    intros Hround. apply orb_true_iff in Hbranch as [Hb|Hb].
    + apply Z.eqb_eq in Hb. done.
    + apply bool_decide_eq_true in Hb. rewrite Hb. unfold slice_to.
      destruct (0 <=? Z.min (len []) n); rewrite take_nil; apply prefix_nil.
  - apply orb_false_iff in Hbranch as [Hround Hseeds].
    apply Z.eqb_neq in Hround. apply bool_decide_eq_false in Hseeds.
    assert (0 <= n) as Hn by (destruct Hcase as [?|[?|?]]; done).
    destruct (generate_mutated_candidates_len seeds n g Hseeds Hn)
      as (r & g' & Hr & Hlen & Hpre).
    run_with Hr. eexists _, g'. split; [reflexivity|]. split; [cbn; lia|done].
Qed.

(** C4.  For every [n >= 1], every round number, every list of seeds (the
    empty one too) and every state of the random generator, [act] returns
    without raising, and the list of candidates it returns has exactly [n]
    elements. *)
Theorem generate_returns_exactly_n
    (name : string) (n round : Z) (seeds : list string) (g : rng) :
  1 <= n ->
  exists out g',
    act name {| n_candidates := Some n; round_num := Some round;
                seed_molecules := Some seeds |} g = (Ok out, g')
    /\ len (candidates out) = n.
Proof.
  intros Hn.
  destruct (act_candidates name
              {| n_candidates := Some n; round_num := Some round;
                 seed_molecules := Some seeds |} g) as (out & g' & Hact & Hlen & _).
  { left. cbn. lia. }
  exists out, g'. split; [done|]. cbn in Hlen. lia.
Qed.

End GeneratorSize.

(** ** The evaluation loop of a round *)

Section Evaluation.
Import AgenticPipeline Rounds.

Lemma omap_cons_evaluated tool plan round_num smiles candidates :
  omap (evaluated tool plan round_num) (smiles :: candidates)
    = match evaluated tool plan round_num smiles with
      | Some m => m :: omap (evaluated tool plan round_num) candidates
      | None => omap (evaluated tool plan round_num) candidates
      end.
Proof. reflexivity. Qed.

(** The loop keeps exactly the admitted candidates, in their order. *)
Lemma process_molecules_admitted tool plan round_num candidates acc count kept count' :
  process_molecules tool (screening plan) (PlannerAgent.scoring_penalty plan)
    round_num candidates acc count = Ok (kept, count') ->
  kept = acc ++ admitted tool plan round_num candidates.
Proof.
  unfold admitted, passedAdmission.
  revert acc count. induction candidates as [|smiles candidates IH]; intros acc count.
  - cbn. intros [= <- _]. by rewrite app_nil_r.
  - cbn [process_molecules]. rewrite omap_cons_evaluated.
    unfold evaluated at 1. destruct (tool smiles) as [result|e]; [|done].
    destruct (pr_valid result); [|apply IH].
    destruct (pr_properties result) as [D|]; [|done].
    unfold MoleculeScreening.evaluate_molecule.
    destruct (MoleculeScreening.score D (MoleculeScreening.screen (screening plan) D)
                (PlannerAgent.scoring_penalty plan)) as [score|e]; [|done].
    cbn [mbind result_bind mret result_ret MoleculeScreening.ev_screening_result
         MoleculeScreening.ev_score].
    intros Hrun. apply IH in Hrun. rewrite Hrun.
    cbn [List.filter mol_screening_result].
    destruct (MoleculeScreening.passed (MoleculeScreening.screen (screening plan) D));
      [|done].
    by rewrite <- app_assoc.
Qed.


(** The loop raises what the oracle raises for the first candidate. *)
Lemma process_molecules_raises tool screening penalty round_num smiles candidates acc count e :
  tool smiles = Raise e ->
  process_molecules tool screening penalty round_num (smiles :: candidates) acc count
    = Raise e.
Proof. intros Htool. cbn [process_molecules]. by rewrite Htool. Qed.

Lemma admitted_length tool plan round_num candidates :
  (length (admitted tool plan round_num candidates) <= length candidates)%nat.
Proof.
  unfold admitted. etrans; [apply filter_length_le|].
  induction candidates as [|smiles candidates IH]; [done|].
  rewrite omap_cons_evaluated. destruct (evaluated _ _ _ smiles); cbn; lia.
Qed.

Lemma admitted_in tool plan round_num candidates m :
  m ∈ admitted tool plan round_num candidates ->
  passedAdmission m = true
  /\ exists smiles, smiles ∈ candidates /\ evaluated tool plan round_num smiles = Some m.
Proof.
  unfold admitted. intros Hin%list_elem_of_In. apply filter_In in Hin as [Hin Hpass].
  split; [done|]. apply list_elem_of_In, list_elem_of_omap in Hin. exact Hin.
Qed.

Lemma evaluated_Some tool plan round_num smiles m :
  evaluated tool plan round_num smiles = Some m ->
  mol_smiles m = smiles
  /\ mol_round m = round_num
  /\ mol_rank m = None
  /\ MoleculeScreening.score (mol_properties m) (mol_screening_result m)
         (PlannerAgent.scoring_penalty plan) = Ok (mol_score m)
  /\ mol_screening_result m
       = MoleculeScreening.screen (screening plan) (mol_properties m)
  /\ exists result,
       tool smiles = Ok result /\ pr_valid result = true
       /\ pr_properties result = Some (mol_properties m).
Proof.
  unfold evaluated. destruct (tool smiles) as [result|e]; [|done].
  destruct (pr_valid result) eqn:Hvalid; [|done].
  destruct (pr_properties result) as [D|] eqn:HD; [|done].
  destruct (MoleculeScreening.score D (MoleculeScreening.screen (screening plan) D)
              (PlannerAgent.scoring_penalty plan)) as [score|e] eqn:Hscore; [|done].
  intros [= <-]. cbn. eauto 10.
Qed.

(** The ranker computes the score by the formula of the screening
    module. *)
Lemma calculate_score_is_score m penalty :
  RankerAgent._calculate_score m penalty
    = MoleculeScreening.score (mol_properties m) (mol_screening_result m) penalty.
Proof. reflexivity. Qed.

(** The admitted candidates have the scores that the ranker computes for
    them. *)
Lemma admitted_scores tool plan round_num candidates :
  Forall (fun m => RankerAgent._calculate_score m (PlannerAgent.scoring_penalty plan)
                     = Ok (mol_score m))
         (admitted tool plan round_num candidates).
Proof.
  apply Forall_forall. intros m Hm.
  apply admitted_in in Hm as (_ & smiles & _ & Hev).
  apply evaluated_Some in Hev as (_ & _ & _ & Hscore & _). by rewrite calculate_score_is_score.
Qed.

(** So the ranker returns for them, and what it ranks is the admitted
    candidates themselves. *)
Lemma rank_admitted tool plan round_num candidates :
  let processed := admitted tool plan round_num candidates in
  let ranked := sorted_reverse mol_score processed in
  RankerAgent.act "ranker" (rank_context plan processed)
    = Ok {| RankerAgent.ranked_molecules := ranked;
            RankerAgent.top_molecules := slice_to ranked (PlannerAgent.top_k plan);
            RankerAgent.agent := "ranker";
            RankerAgent.n_ranked := len ranked;
            RankerAgent.n_top := len (slice_to ranked (PlannerAgent.top_k plan)) |}.
Proof.
  intros processed ranked.
  destruct (rescore_consistent (PlannerAgent.scoring_penalty plan) processed
              (admitted_scores tool plan round_num candidates)) as [Hscores Hsame].
  unfold rank_context. rewrite (act_scored _ _ _ _ _ Hscores). by rewrite Hsame.
Qed.

End Evaluation.

(** ** One round *)

Section Round.
Import AgenticPipeline Rounds.

Lemma run_round_unfold tool plan round_num seed all w out g' :
  GeneratorAgent.act "generator" (gen_context plan round_num (map mol_smiles seed))
    (random w) = (Ok out, g') ->
  let raises e :=
    exists w1,
      run_round tool plan (screening plan) round_num seed all w = (Raise e, w1)
      /\ log w1 = log w
      /\ added (db w1) = []
      /\ stored_molecules (db w1) = stored_molecules (db w) ++ added (db w) in
  match process_molecules tool (screening plan) (PlannerAgent.scoring_penalty plan)
          round_num (GeneratorAgent.candidates out) [] 0 with
  | Raise e => raises e
  | Ok (processed, _) =>
      match RankerAgent.act "ranker" (rank_context plan processed) with
      | Raise e => raises e
      | Ok ranked =>
          exists w2,
            run_round tool plan (screening plan) round_num seed all w
              = (Ok (RankerAgent.top_molecules ranked,
                     all ++ RankerAgent.ranked_molecules ranked), w2)
            /\ random w2 = g'
            /\ added (db w2) = []
            /\ stored_molecules (db w2) = stored_molecules (db w) ++ added (db w)
            /\ log w2 = log w ++
                 [{| rl_round := round_num;
                     rl_seed := map mol_smiles seed;
                     rl_candidates := GeneratorAgent.candidates out;
                     rl_processed := processed;
                     rl_ranked := RankerAgent.ranked_molecules ranked;
                     rl_top := RankerAgent.top_molecules ranked |}]
      end
  end.
Proof.
  intros Hgen raises. unfold raises, run_round.
  unfold on_run, set_progress, on_run, db_commit, with_random, zoom, log_round, lift,
    modify, mbind, M_bind, Py.bind, mret, M_ret, Py.ret.
  cbn [db random log run_row added stored_run stored_molecules fst snd].
  unfold gen_context in Hgen. rewrite Hgen.
  cbn [db random log run_row added stored_run stored_molecules fst snd].
  destruct (process_molecules tool (screening plan) (PlannerAgent.scoring_penalty plan)
              round_num (GeneratorAgent.candidates out) [] 0) as [[processed count]|e].
  - fold (rank_context plan processed).
    destruct (RankerAgent.act "ranker" (rank_context plan processed)) as [ranked|e].
    + eexists. split; [reflexivity|]. cbn. by rewrite !app_nil_r.
    + eexists. split; [reflexivity|]. cbn. by rewrite !app_nil_r.
  - eexists. split; [reflexivity|]. cbn. by rewrite !app_nil_r.
Qed.

Lemma last_top_cons seed r l : last_top seed (r :: l) = last_top (rl_top r) l.
Proof.
  unfold last_top. destruct l as [|r0 l]; [done|].
  change (last (r :: r0 :: l)) with (last (r0 :: l)).
  destruct (last (r0 :: l)) eqn:Hlast; [done|]. by apply last_None in Hlast.
Qed.

(** The generator does not raise in a round, and returns as many
    candidates as the plan asks for. *)
Lemma round_generates plan round_num (seed : list mol) g :
  len seed <= Z.max 0 (PlannerAgent.candidates_per_round plan) ->
  exists out g',
    GeneratorAgent.act "generator" (gen_context plan round_num (map mol_smiles seed)) g
      = (Ok out, g')
    /\ len (GeneratorAgent.candidates out)
         = Z.max 0 (PlannerAgent.candidates_per_round plan)
    /\ (round_num <> 1 ->
          map mol_smiles seed `prefix_of` GeneratorAgent.candidates out).
Proof.
  intros Hseed.
  destruct (act_candidates "generator"
              (gen_context plan round_num (map mol_smiles seed)) g)
    as (out & g' & Hact & Hlen & Hpre).
  { cbn. destruct (Z.le_gt_cases 0 (PlannerAgent.candidates_per_round plan)); [by left|].
    right; right. destruct seed; [done|]. exfalso. unfold len in Hseed.
    cbn [length] in Hseed. lia. }
  exists out, g'. split; [done|]. split; [exact Hlen|].
  intros Hround. specialize (Hpre Hround). cbn in Hpre.
  replace (slice_to (map mol_smiles seed)
             (Z.min (len (map mol_smiles seed)) (PlannerAgent.candidates_per_round plan)))
    with (map mol_smiles seed) in Hpre; [done|].
  unfold slice_to, len in *. rewrite length_map in *.
  destruct seed as [|m seed].
  { cbn [map]. destruct (0 <=? _); by rewrite take_nil. }
  cbn [length] in *.
  destruct (Z.leb_spec 0 (Z.min (Z.of_nat (S (length seed)))
                            (PlannerAgent.candidates_per_round plan))); [|lia].
  rewrite firstn_all2; [done|]. rewrite length_map. cbn [length]. lia.
Qed.

Lemma score_molecules_length penalty molecules acc scored :
  RankerAgent.score_molecules molecules penalty acc = Ok scored ->
  length scored = (length acc + length molecules)%nat.
Proof.
  revert acc. induction molecules as [|m molecules IH]; intros acc; cbn.
  - intros [= <-]. lia.
  - destruct (RankerAgent._calculate_score m penalty) as [score|e]; [|done]. cbn.
    intros Hrest%IH. rewrite length_app in Hrest. cbn in Hrest. lia.
Qed.

Lemma ranker_top_len plan processed rank_result :
  RankerAgent.act "ranker" (rank_context plan processed) = Ok rank_result ->
  len (RankerAgent.top_molecules rank_result) <= len processed.
Proof.
  unfold RankerAgent.act, rank_context.
  cbn [RankerAgent.molecules RankerAgent.scoring_penalty RankerAgent.top_k from_option id].
  destruct (RankerAgent.score_molecules processed (PlannerAgent.scoring_penalty plan) [])
    as [scored|e] eqn:Hscored; [|done].
  intros [= <-]. cbn [RankerAgent.top_molecules].
  apply score_molecules_length in Hscored. cbn [length] in Hscored.
  pose proof (slice_to_length_le (sorted_reverse mol_score scored) (PlannerAgent.top_k plan))
    as Hle.
  rewrite sorted_reverse_length in Hle. unfold len. lia.
Qed.

(** The rounds: the records they leave agree with the generator, the oracle
    and the ranker; each round receives the elite set of the round before
    it; no molecule row is added before the rounds are over; and the loop
    stops early only when the evaluation loop of a round raises. *)
Lemma run_rounds_log tool plan round_nums seed all w :
  len seed <= Z.max 0 (PlannerAgent.candidates_per_round plan) ->
  added (db w) = [] ->
  exists w' l,
    log w' = log w ++ l
    /\ log_sound tool plan seed round_nums l
    /\ added (db w') = []
    /\ stored_molecules (db w') = stored_molecules (db w)
    /\ ((run_rounds tool plan (screening plan) round_nums seed all w
           = (Ok (last_top seed l, all ++ concat (map rl_ranked l)), w')
         /\ length l = length round_nums)
        \/ (exists e k g out g',
              run_rounds tool plan (screening plan) round_nums seed all w = (Raise e, w')
              /\ round_nums !! length l = Some k
              /\ GeneratorAgent.act "generator"
                    (gen_context plan k (map mol_smiles (last_top seed l))) g = (Ok out, g')
              /\ process_molecules tool (screening plan) (PlannerAgent.scoring_penalty plan)
                    k (GeneratorAgent.candidates out) [] 0 = Raise e)).
Proof.
  revert seed all w.
  induction round_nums as [|k round_nums IH]; intros seed all w Hseed Hadded.
  { exists w, []. rewrite !app_nil_r. repeat (split; [done|]). left. by cbn. }
  cbn [run_rounds].
  destruct (round_generates plan k seed (random w) Hseed) as (out & g' & Hgen & Hlen & _).
  pose proof (run_round_unfold tool plan k seed all w out g' Hgen) as Hround.
  cbv zeta in Hround.
  destruct (process_molecules tool (screening plan) (PlannerAgent.scoring_penalty plan)
              k (GeneratorAgent.candidates out) [] 0) as [[processed count]|e] eqn:Hproc.
  - pose proof (process_molecules_admitted _ _ _ _ _ _ _ _ Hproc) as Hadm.
    cbn [app] in Hadm.
    pose proof (rank_admitted tool plan k (GeneratorAgent.candidates out)) as Hrank.
    cbv zeta in Hrank. rewrite <- Hadm in Hrank. rewrite Hrank in Hround.
    cbn [RankerAgent.ranked_molecules RankerAgent.top_molecules] in Hround.
    destruct Hround as (w2 & Hrun & Hrandom & Hadded2 & Hstored2 & Hlog2).
    set (ranked := sorted_reverse mol_score processed) in *.
    set (top := slice_to ranked (PlannerAgent.top_k plan)) in *.
    set (r := {| rl_round := k; rl_seed := map mol_smiles seed;
                 rl_candidates := GeneratorAgent.candidates out;
                 rl_processed := processed;
                 rl_ranked := ranked;
                 rl_top := top |}) in *.
    rewrite (bind_Ok _ _ _ _ _ Hrun). cbv beta iota.
    assert (Htop : len top <= Z.max 0 (PlannerAgent.candidates_per_round plan)).
    { etrans; [exact (ranker_top_len plan processed _ Hrank)|].
      rewrite Hadm, <- Hlen. unfold len.
      pose proof (admitted_length tool plan k (GeneratorAgent.candidates out)). lia. }
    destruct (IH top (all ++ ranked) w2 Htop Hadded2)
      as (w' & l & Hlog & Hsound & Hadded' & Hstored' & Hres).
    exists w', (r :: l).
    split. { rewrite Hlog, Hlog2, <- app_assoc. done. }
    split. { cbn [log_sound]. split; [done|]. split; [|exact Hsound].
             unfold round_sound. cbn [rl_seed rl_round rl_candidates rl_processed
               rl_ranked rl_top r]. split; [done|]. split; [done|].
             split; [by exists (random w), out, g'|].
             split; [by exists count|]. eexists. split; [exact Hrank|]. done. }
    split; [done|]. split. { rewrite Hstored', Hstored2, Hadded. by rewrite app_nil_r. }
    rewrite last_top_cons. cbn [map concat rl_ranked rl_top r length].
    destruct Hres as [[Hres Hlength]|(e & k' & g1 & out1 & g1' & Hres & Hk & Hgen1 & Hproc1)].
    + left. rewrite Hres, <- app_assoc. split; [done|]. by rewrite Hlength.
    + right. exists e, k', g1, out1, g1'. by rewrite Hres.
  - destruct Hround as (w1 & Hrun & Hlog1 & Hadded1 & Hstored1).
    rewrite (bind_Raise _ _ _ _ _ Hrun).
    exists w1, []. rewrite app_nil_r.
    split; [done|]. split; [done|]. split; [done|].
    split. { rewrite Hstored1, Hadded. by rewrite app_nil_r. }
    right. exists e, k, (random w), out, g'. by cbn.
Qed.

End Round.

(** ** The whole run *)

Section Run.
Import AgenticPipeline Rounds.

Lemma start_run_unfold w :
  exists w0,
    start_run w = (Ok tt, w0)
    /\ log w0 = log w /\ random w0 = random w
    /\ added (db w0) = []
    /\ stored_molecules (db w0) = stored_molecules (db w) ++ added (db w).
Proof.
  eexists. split; [reflexivity|]. cbn. by rewrite ?app_nil_r.
Qed.

Lemma plan_run_unfold parameters w :
  exists w0,
    plan_run parameters w = (Ok (resolve_plan parameters), w0)
    /\ log w0 = log w /\ random w0 = random w
    /\ added (db w0) = []
    /\ stored_molecules (db w0) = stored_molecules (db w) ++ added (db w).
Proof.
  eexists. split; [reflexivity|]. cbn. by rewrite ?app_nil_r.
Qed.

(** The run up to the first round: three commits, and no molecule row. *)
Lemma prepare_run_unfold parameters g :
  exists ws w0,
    start_run (queued g) = (Ok tt, ws)
    /\ plan_run parameters ws = (Ok (resolve_plan parameters), w0)
    /\ log w0 = [] /\ random w0 = g
    /\ added (db w0) = []
    /\ stored_molecules (db w0) = [].
Proof.
  destruct (start_run_unfold (queued g)) as (ws & Hstart & Hlog & Hrandom & Hadded & Hstored).
  destruct (plan_run_unfold parameters ws)
    as (w0 & Hplan & Hlog0 & Hrandom0 & Hadded0 & Hstored0).
  exists ws, w0. split; [exact Hstart|]. split; [exact Hplan|].
  rewrite Hlog0, Hlog, Hrandom0, Hrandom, Hstored0, Hstored, Hadded. done.
Qed.

Lemma save_molecules_unfold molecules w :
  exists w',
    save_molecules molecules w = (Ok tt, w')
    /\ log w' = log w
    /\ run_row (db w') = run_row (db w)
    /\ stored_run (db w') = stored_run (db w)
    /\ added (db w') = added (db w) ++ molecules
    /\ stored_molecules (db w') = stored_molecules (db w).
Proof.
  revert w. induction molecules as [|m molecules IH]; intros w; cbn [save_molecules].
  { exists w. by rewrite app_nil_r. }
  unfold mbind, M_bind, Py.bind, db_add, modify. cbv beta iota.
  match goal with |- context [save_molecules molecules ?w1] =>
    destruct (IH w1) as (w' & Hrun & Hlog & Hrow & Hstored_run & Hadded & Hstored) end.
  exists w'. rewrite Hrun. cbn in *. rewrite Hadded, <- app_assoc. done.
Qed.

(** The last phase: the accumulated molecules are sorted, ranked by
    position, added to the session and written with the status
    ["completed"]. *)
Lemma finish_run_unfold rounds all w :
  added (db w) = [] ->
  let final := imap (fun idx m => with_rank m (Z.of_nat idx + 1))
                    (sorted_reverse mol_score all) in
  exists w',
    finish_run rounds all w = (Ok (Completed final (len final)), w')
    /\ log w' = log w
    /\ added (db w') = []
    /\ stored_molecules (db w') = stored_molecules (db w) ++ final
    /\ status (stored_run (db w')) = "completed"
    /\ error_message (stored_run (db w')) = error_message (run_row (db w)).
Proof.
  intros Hadded final. unfold finish_run. fold final.
  unfold set_progress, on_run, db_commit, modify, mbind, M_bind, Py.bind. cbv beta iota.
  match goal with |- context [save_molecules final ?w1] =>
    destruct (save_molecules_unfold final w1)
      as (w2 & Hrun & Hlog & Hrow & Hstored_run & Hadded2 & Hstored) end.
  rewrite Hrun. cbv beta iota. eexists. split; [reflexivity|].
  cbn in *. rewrite Hlog, Hadded2, Hstored, Hadded, Hrow. cbn. by rewrite !app_nil_r.
Qed.

(** The [except] clause writes the status ["failed"] and the text of the
    exception. *)
Lemma fail_run_unfold e w :
  exists w',
    fail_run e w = (Ok (Failed e), w')
    /\ log w' = log w
    /\ added (db w') = []
    /\ stored_molecules (db w') = stored_molecules (db w) ++ added (db w)
    /\ status (stored_run (db w')) = "failed"
    /\ error_message (stored_run (db w')) = Some e.
Proof. eexists. split; [reflexivity|]. done. Qed.

(** The two ways a run can end.  It completes after all its rounds, and then
    it has written the ranked molecules; or the evaluation loop of some
    round raised, and then it has written the status ["failed"] with the
    text of the exception and no molecule. *)
Lemma run_cases tool parameters g :
  let plan := resolve_plan parameters in
  let round_nums := seqZ 1 (PlannerAgent.rounds plan) in
  exists w' l,
    log w' = l
    /\ log_sound tool plan [] round_nums l
    /\ added (db w') = []
    /\ ((let final := imap (fun idx m => with_rank m (Z.of_nat idx + 1))
                       (sorted_reverse mol_score (concat (map rl_ranked l))) in
         run (Ok tool) parameters (queued g) = (Ok (Completed final (len final)), w')
         /\ length l = length round_nums
         /\ stored_molecules (db w') = final
         /\ status (stored_run (db w')) = "completed")
        \/ (exists e k g1 out g1',
              run (Ok tool) parameters (queued g) = (Ok (Failed e), w')
              /\ status (stored_run (db w')) = "failed"
              /\ error_message (stored_run (db w')) = Some e
              /\ stored_molecules (db w') = []
              /\ round_nums !! length l = Some k
              /\ GeneratorAgent.act "generator"
                    (gen_context plan k (map mol_smiles (last_top [] l))) g1 = (Ok out, g1')
              /\ process_molecules tool (screening plan) (PlannerAgent.scoring_penalty plan)
                    k (GeneratorAgent.candidates out) [] 0 = Raise e)).
Proof.
  intros plan round_nums.
  unfold run, try_except, run_try.
  destruct (prepare_run_unfold parameters g)
    as (ws & w0 & Hstart & Hplan & Hlog0 & _ & Hadded0 & Hstored0).
  destruct (run_rounds_log tool plan round_nums [] [] w0)
    as (w1 & l & Hlog1 & Hsound & Hadded1 & Hstored1 & Hrounds).
  { unfold len. cbn. lia. }
  { done. }
  rewrite Hlog0 in Hlog1. cbn in Hlog1.
  rewrite (bind_Ok _ _ _ _ _ Hstart), (bind_Ok (lift (Ok tool)) _ ws tool ws eq_refl),
    (bind_Ok _ _ _ _ _ Hplan).
  fold plan. fold (screening plan). fold round_nums.
  destruct Hrounds as [[Hrun Hlength]|(e & k & g1 & out & g1' & Hrun & Hk & Hgen & Hproc)].
  - rewrite (bind_Ok _ _ _ _ _ Hrun). cbv beta iota.
    destruct (finish_run_unfold (PlannerAgent.rounds plan) (concat (map rl_ranked l)) w1 Hadded1)
      as (w2 & Hfinish & Hlog2 & Hadded2 & Hstored2 & Hstatus & Herror).
    cbn [app] in *. rewrite Hfinish.
    exists w2, l. split; [by rewrite Hlog2|]. split; [done|]. split; [done|]. left.
    split; [done|]. split; [done|]. split; [by rewrite Hstored2, Hstored1, Hstored0|].
    done.
  - rewrite (bind_Raise _ _ _ _ _ Hrun).
    destruct (fail_run_unfold e w1)
      as (w2 & Hfail & Hlog2 & Hadded2 & Hstored2 & Hstatus & Herror).
    rewrite Hfail. exists w2, l. split; [by rewrite Hlog2|]. split; [done|].
    split; [done|]. right. exists e, k, g1, out, g1'.
    split; [done|]. split; [done|]. split; [done|].
    split; [by rewrite Hstored2, Hstored1, Hstored0, Hadded1|]. done.
Qed.

End Run.

(** ** What the record of a round says *)

Section Records.
Import AgenticPipeline Rounds.

Lemma round_sound_facts tool plan seed r :
  round_sound tool plan seed r ->
  rl_seed r = map mol_smiles seed
  /\ rl_processed r = admitted tool plan (rl_round r) (rl_candidates r)
  /\ rl_ranked r = sorted_reverse mol_score (rl_processed r)
  /\ rl_top r = slice_to (rl_ranked r) (PlannerAgent.top_k plan)
  /\ len (rl_candidates r) = Z.max 0 (PlannerAgent.candidates_per_round plan)
  /\ (rl_round r <> 1 -> rl_seed r `prefix_of` rl_candidates r)
  /\ len (rl_seed r) <= Z.max 0 (PlannerAgent.candidates_per_round plan)
  /\ len (rl_top r) <= Z.max 0 (PlannerAgent.candidates_per_round plan).
Proof.
  intros (Hseed & Hlen & (g & out & g' & Hgen & Hout) & (count & Hproc)
          & (rank_result & Hact & Hranked & Htop)).
  apply process_molecules_admitted in Hproc. cbn [app] in Hproc.
  pose proof (ranker_top_len _ _ _ Hact) as Htoplen.
  pose proof (rank_admitted tool plan (rl_round r) (rl_candidates r)) as Hrank.
  cbv zeta in Hrank. rewrite <- Hproc, Hact in Hrank. injection Hrank as ->.
  cbn [RankerAgent.ranked_molecules RankerAgent.top_molecules] in Hranked, Htop, Htoplen.
  destruct (round_generates plan (rl_round r) seed g Hlen)
    as (out' & g'' & Hgen' & Hlen' & Hpre).
  rewrite <- Hseed, Hgen in Hgen'. injection Hgen' as <- <-. rewrite Hout in *.
  split; [done|]. split; [done|]. split; [done|].
  split; [by rewrite Htop, Hranked|]. split; [done|].
  split; [by rewrite Hseed|].
  split; [by rewrite Hseed; unfold len; rewrite length_map|].
  rewrite Htop. etrans; [exact Htoplen|]. rewrite Hproc, <- Hlen'.
  unfold len. pose proof (admitted_length tool plan (rl_round r) (rl_candidates r)). lia.
Qed.

Lemma log_sound_lookup tool plan seed round_nums l i r :
  log_sound tool plan seed round_nums l ->
  l !! i = Some r ->
  round_nums !! i = Some (rl_round r)
  /\ exists seed_i, round_sound tool plan seed_i r.
Proof.
  revert seed round_nums i.
  induction l as [|r0 l IH]; intros seed round_nums i Hsound Hi; [done|].
  destruct round_nums as [|k round_nums]; [done|].
  destruct Hsound as (Hround & Hr0 & Hsound).
  destruct i as [|i]; cbn in *.
  - injection Hi as <-. rewrite Hround. eauto.
  - eapply IH; eauto.
Qed.

Lemma log_sound_consecutive tool plan seed round_nums l i r1 r2 :
  log_sound tool plan seed round_nums l ->
  l !! i = Some r1 -> l !! S i = Some r2 ->
  round_sound tool plan (rl_top r1) r2.
Proof.
  revert seed round_nums i.
  induction l as [|r0 l IH]; intros seed round_nums i Hsound H1 H2; [done|].
  destruct round_nums as [|k round_nums]; [done|].
  destruct Hsound as (Hround & Hr0 & Hsound).
  destruct i as [|i]; cbn in *.
  - injection H1 as <-. destruct l as [|r l]; [done|]. injection H2 as <-.
    destruct round_nums; [done|]. by destruct Hsound as (_ & ? & _).
  - eapply IH; eauto.
Qed.

Lemma log_sound_length tool plan seed round_nums l :
  log_sound tool plan seed round_nums l ->
  length l = length round_nums ->
  map rl_round l = round_nums.
Proof.
  revert seed round_nums. induction l as [|r l IH]; intros seed round_nums Hsound Hlen.
  - by destruct round_nums.
  - destruct round_nums as [|k round_nums]; [done|].
    destruct Hsound as (Hround & _ & Hsound). cbn in *.
    f_equal; [done|]. eapply IH; eauto.
Qed.

End Records.

(** ** Seeding and re-scoring across the rounds *)

Section Seeding.
Import AgenticPipeline Rounds.

Lemma run_log_sound tool parameters g :
  let plan := resolve_plan parameters in
  log_sound tool plan [] (seqZ 1 (PlannerAgent.rounds plan))
    (log (run (Ok tool) parameters (queued g)).2).
Proof.
  intros plan.
  destruct (run_cases tool parameters g) as (w' & l & Hlog & Hsound & _ & Hcases).
  destruct Hcases as [(Hrun & _)|(e & k & g1 & out & g1' & Hrun & _)];
    rewrite Hrun; cbn [snd]; by rewrite Hlog.
Qed.

(** C10.  For every molecule and every penalty the ranker's computation of
    the score has the result of the scoring function of the screening module
    on the descriptors and the screening result of the molecule: the same
    value, or the same exception; and in every run, for every round, the
    scores that the ranker computes for the admitted candidates are the
    scores these already have, so that the scoring loop of the ranker
    returns the admitted candidates as they are, and the ranked list of the
    round is the sorted list of the admitted candidates themselves. *)
Theorem ranker_rescoring_keeps_scores
    (m : mol) (penalty : float)
    (tool : chemistry_tool) (parameters : PlannerAgent.context) (g : rng) :
  RankerAgent._calculate_score m penalty
    = MoleculeScreening.score (mol_properties m) (mol_screening_result m) penalty
  /\ forall r, r ∈ log (run (Ok tool) parameters (queued g)).2 ->
       let penalty := PlannerAgent.scoring_penalty (resolve_plan parameters) in
       Forall (fun m => RankerAgent._calculate_score m penalty = Ok (mol_score m))
              (rl_processed r)
       /\ RankerAgent.score_molecules (rl_processed r) penalty [] = Ok (rl_processed r)
       /\ rl_ranked r = sorted_reverse mol_score (rl_processed r).
Proof.
  split; [apply calculate_score_is_score|]. intros r Hr penalty'.
  apply list_elem_of_lookup in Hr as [i Hi].
  destruct (log_sound_lookup _ _ _ _ _ _ _ (run_log_sound tool parameters g) Hi)
    as (_ & seed_i & Hsound).
  apply round_sound_facts in Hsound as (_ & Hproc & Hranked & _).
  assert (Hscores : Forall (fun m => RankerAgent._calculate_score m penalty'
                                       = Ok (mol_score m)) (rl_processed r)).
  { rewrite Hproc. apply admitted_scores. }
  split; [exact Hscores|]. split; [|done].
  destruct (rescore_consistent _ _ Hscores) as [Hall Hsame].
  by rewrite (score_molecules_scored _ _ _ [] Hall), Hsame.
Qed.

(** The candidates that the generator returns after the first round start
    with the seeds. *)
Lemma generated_starts_with_seed plan round_num (seed : list mol) g out g' :
  let n := PlannerAgent.candidates_per_round plan in
  let seeds := map mol_smiles seed in
  len seed <= Z.max 0 n -> round_num <> 1 ->
  GeneratorAgent.act "generator" (gen_context plan round_num seeds) g = (Ok out, g') ->
  slice_to (GeneratorAgent.candidates out) (Z.min (len seeds) n) = seeds
  /\ take (length seeds) (GeneratorAgent.candidates out) = seeds.
Proof.
  intros n seeds Hlen Hround Hgen.
  destruct (round_generates plan round_num seed g Hlen) as (out' & g'' & Hgen' & Hsize & Hpre).
  fold seeds in Hgen', Hpre. rewrite Hgen in Hgen'. injection Hgen' as <- <-.
  destruct (Hpre Hround) as [rest Hrest].
  assert (Htake : take (length seeds) (GeneratorAgent.candidates out) = seeds).
  { by rewrite Hrest, take_app_length. }
  split; [|done].
  assert (Hseeds : len seeds <= Z.max 0 n).
  { unfold seeds, len. rewrite length_map. exact Hlen. }
  fold n in Hsize. unfold slice_to, len in *. destruct seeds as [|s seeds'] eqn:Hs.
  - cbn [length] in *. destruct (Z.leb_spec 0 (Z.min (Z.of_nat 0) n)).
    + by replace (Z.to_nat (Z.min (Z.of_nat 0) n)) with O by lia.
    + destruct (GeneratorAgent.candidates out); [apply take_nil|].
      cbn [length] in Hsize. lia.
  - cbn [length] in *.
    destruct (Z.leb_spec 0 (Z.min (Z.of_nat (S (length seeds'))) n)); [|lia].
    rewrite Z.min_l by lia. by rewrite Nat2Z.id.
Qed.

(** C6.  In every run, for every round [r] that the run carried out: the
    seed list for round [r + 1] consists of the structures of the elite list
    that the ranker returned at the end of round [r] (the first [top_k] of
    the ranked list of that round), in the same order.  When the run carried
    out round [r + 1] as well, this is the seed list that was passed to the
    generator in round [r + 1]; the candidates generated in round [r + 1]
    are what the generator returns for that seed list; and the whole seed
    list stands unchanged at the front of the candidates, its length being
    [min(len(seed), n)].  When round [r] is not the last round of the plan
    and the run did not carry out round [r + 1], the run failed in round
    [r + 1], in the evaluation of candidates that the generator returned
    for that same seed list, with the seed list at their front. *)
Theorem next_round_starts_with_elite
    (tool : chemistry_tool) (parameters : PlannerAgent.context) (g : rng)
    (i : nat) (r1 : round_log) :
  let plan := resolve_plan parameters in
  let n := PlannerAgent.candidates_per_round plan in
  let trace := log (run (Ok tool) parameters (queued g)).2 in
  let seeds := map mol_smiles (rl_top r1) in
  trace !! i = Some r1 ->
  rl_round r1 = Z.of_nat i + 1
  /\ (exists rank_result,
        RankerAgent.act "ranker" (rank_context plan (rl_processed r1)) = Ok rank_result
        /\ rl_top r1 = RankerAgent.top_molecules rank_result)
  /\ rl_top r1 = slice_to (rl_ranked r1) (PlannerAgent.top_k plan)
  /\ len seeds <= Z.max 0 n
  /\ (forall r2, trace !! S i = Some r2 ->
        rl_round r2 = rl_round r1 + 1
        /\ rl_seed r2 = seeds
        /\ (exists g1 out g2,
              GeneratorAgent.act "generator" (gen_context plan (rl_round r2) seeds) g1
                = (Ok out, g2)
              /\ GeneratorAgent.candidates out = rl_candidates r2)
        /\ slice_to (rl_candidates r2) (Z.min (len seeds) n) = seeds
        /\ take (length seeds) (rl_candidates r2) = seeds)
  /\ (trace !! S i = None -> rl_round r1 < PlannerAgent.rounds plan ->
        exists e w' g1 out g2,
          run (Ok tool) parameters (queued g) = (Ok (Failed e), w')
          /\ GeneratorAgent.act "generator" (gen_context plan (rl_round r1 + 1) seeds) g1
               = (Ok out, g2)
          /\ take (length seeds) (GeneratorAgent.candidates out) = seeds
          /\ process_molecules tool (screening plan) (PlannerAgent.scoring_penalty plan)
               (rl_round r1 + 1) (GeneratorAgent.candidates out) [] 0 = Raise e).
Proof.
  intros plan n trace seeds H1.
  pose proof (run_log_sound tool parameters g) as Hsound. fold plan trace in Hsound.
  destruct (log_sound_lookup _ _ _ _ _ _ _ Hsound H1) as (Hk1 & seed1 & Hr1).
  apply lookup_seqZ in Hk1 as [Hk1 _].
  pose proof Hr1 as (_ & _ & _ & _ & rank_result & Hact1 & _ & Htop1).
  apply round_sound_facts in Hr1 as (_ & _ & _ & Hslice1 & _ & _ & _ & Htoplen).
  assert (Hseeds : len seeds <= Z.max 0 n).
  { unfold seeds, len. rewrite length_map. exact Htoplen. }
  split; [lia|]. split; [by exists rank_result|]. split; [done|]. split; [done|].
  split.
  - intros r2 H2.
    destruct (log_sound_lookup _ _ _ _ _ _ _ Hsound H2) as (Hk2 & _).
    apply lookup_seqZ in Hk2 as [Hk2 _].
    pose proof (log_sound_consecutive _ _ _ _ _ _ _ _ Hsound H1 H2)
      as (Hseed2 & _ & (g1 & out & g2 & Hgen2 & Hout2) & _).
    fold seeds in Hseed2. rewrite Hseed2 in Hgen2.
    split; [lia|]. split; [done|]. split; [by exists g1, out, g2|].
    rewrite <- Hout2.
    apply (generated_starts_with_seed plan (rl_round r2) (rl_top r1) g1 out g2);
      [exact Htoplen|lia|exact Hgen2].
  - intros H2 Hlast.
    destruct (run_cases tool parameters g) as (w' & l & Hlog & _ & _ & Hcases).
    fold plan in Hcases.
    destruct Hcases as [(Hrun & Hlength & _)
                       |(e & k & g1 & out & g2 & Hrun & _ & _ & _ & Hk & Hgen & Hproc)].
    + exfalso. assert (trace = l) as Htrace by (unfold trace; by rewrite Hrun).
      rewrite Htrace in H2. apply lookup_ge_None in H2.
      rewrite Hlength, length_seqZ in H2. lia.
    + assert (trace = l) as Htrace by (unfold trace; by rewrite Hrun).
      rewrite Htrace in H1, H2.
      assert (Hlen : length l = S i).
      { apply lookup_ge_None in H2. apply lookup_lt_Some in H1. lia. }
      assert (Hlast_top : last_top [] l = rl_top r1).
      { unfold last_top. rewrite last_lookup, Hlen. cbn [pred]. by rewrite H1. }
      rewrite Hlen in Hk. apply lookup_seqZ in Hk as [Hk _].
      rewrite Hlast_top in Hgen. fold seeds in Hgen.
      replace k with (rl_round r1 + 1) in Hgen, Hproc by lia.
      exists e, w', g1, out, g2. split; [done|]. split; [done|]. split; [|done].
      apply (generated_starts_with_seed plan (rl_round r1 + 1) (rl_top r1) g1 out g2);
        [exact Htoplen|lia|exact Hgen].
Qed.

End Seeding.

(** ** The final ranking *)

Section FinalRanking.
Import AgenticPipeline Rounds.

Lemma descending_same_keys {A} (key : A -> float) (l1 l2 : list A) :
  Forall2 (fun a b => key a = key b) l1 l2 ->
  Spec.descending key l1 -> Spec.descending key l2.
Proof.
  unfold Spec.descending. intros Hsame. induction Hsame as [|a b l1 l2 Hab Hsame IH].
  - done.
  - rewrite !StronglySorted_cons. intros [Hhead Htail]. split; [|by apply IH].
    clear IH Htail. induction Hsame as [|a' b' l1 l2 Hab' _ IH]; [done|].
    apply Forall_cons in Hhead as [Ha' Hhead]. constructor; [|by apply IH].
    by rewrite <- Hab, <- Hab'.
Qed.

Lemma ranks_by_position (f : nat -> Z) (l : list mol) :
  Forall (fun m => mol_rank m = None) l ->
  map unranked (imap (fun idx m => with_rank m (f idx)) l) = l
  /\ Forall2 (fun a b => mol_score a = mol_score b)
       l (imap (fun idx m => with_rank m (f idx)) l).
Proof.
  intros Hl. revert f. induction Hl as [|m l Hm _ IH]; intros f; [done|].
  cbn [imap map]. destruct (IH (f ∘ S)) as [IH1 IH2]. split.
  - f_equal; [|exact IH1]. destruct m. cbn in *. by rewrite Hm.
  - constructor; [done|exact IH2].
Qed.

Lemma concat_map_perm {A B} (f h : A -> list B) (l : list A) :
  Forall (fun a => f a ≡ₚ h a) l -> concat (map f l) ≡ₚ concat (map h l).
Proof.
  induction 1 as [|a l Ha _ IH]; [done|]. cbn. by rewrite Ha, IH.
Qed.

Lemma elem_of_concat_map {A B} (f : A -> list B) (l : list A) (b : B) :
  b ∈ concat (map f l) <-> exists a, a ∈ l /\ b ∈ f a.
Proof.
  induction l as [|a l IH]; cbn [map concat].
  - split; [by intros ?%elem_of_nil|]. by intros (a & ?%elem_of_nil & _).
  - rewrite elem_of_app, IH. split.
    + intros [Hb|(a' & Ha' & Hb)]; [exists a|exists a']; (split; [|done]);
        [by left|by right].
    + intros (a' & [->|Ha']%elem_of_cons & Hb); [by left|right; eauto].
Qed.

(** The records of a sound log: every ranked list is the sorted list of the
    admitted candidates of its round. *)
Lemma log_sound_rounds tool plan seed round_nums l :
  log_sound tool plan seed round_nums l ->
  Forall (fun r =>
            rl_ranked r
              = sorted_reverse mol_score (admitted tool plan (rl_round r) (rl_candidates r))
            /\ rl_top r `prefix_of` rl_ranked r) l.
Proof.
  intros Hsound. apply Forall_lookup. intros i r Hi.
  destruct (log_sound_lookup _ _ _ _ _ _ _ Hsound Hi) as (_ & seed_i & Hr).
  apply round_sound_facts in Hr as (_ & Hproc & Hranked & Htop & _).
  split; [by rewrite Hranked, Hproc|]. rewrite Htop. apply slice_to_prefix.
Qed.

Lemma evaluated_valid tool plan round_num smiles m :
  evaluated tool plan round_num smiles = Some m -> mol_valid m = true.
Proof.
  unfold evaluated. destruct (tool smiles) as [result|]; [|done].
  destruct (pr_valid result); [|done]. destruct (pr_properties result); [|done].
  destruct (MoleculeScreening.score _ _ _); [|done]. by intros [= <-].
Qed.

(** The seeds of a round are structures of molecules ranked in the round
    before it. *)
Lemma log_sound_seeds tool plan rounds l r s :
  log_sound tool plan [] (seqZ 1 rounds) l ->
  r ∈ l -> s ∈ rl_seed r ->
  exists r0 m, r0 ∈ l /\ m ∈ rl_ranked r0 /\ mol_smiles m = s
               /\ rl_round r = rl_round r0 + 1.
Proof.
  intros Hsound Hr Hs. apply list_elem_of_lookup in Hr as [i Hi].
  destruct i as [|i].
  - destruct l as [|r' l]; [done|]. injection Hi as ->.
    destruct (seqZ 1 rounds); [done|]. destruct Hsound as (_ & (Hseed & _) & _).
    rewrite Hseed in Hs. by apply elem_of_nil in Hs.
  - destruct (l !! i) as [r0|] eqn:Hi0.
    2:{ apply lookup_ge_None in Hi0. apply lookup_lt_Some in Hi. lia. }
    pose proof (log_sound_consecutive _ _ _ _ _ _ _ _ Hsound Hi0 Hi) as (Hseed & _).
    rewrite Hseed in Hs. apply list_elem_of_fmap in Hs as (m & -> & Hm).
    destruct (log_sound_lookup _ _ _ _ _ _ _ Hsound Hi0) as (Hk0 & seed0 & Hr0).
    destruct (log_sound_lookup _ _ _ _ _ _ _ Hsound Hi) as (Hk & _).
    apply round_sound_facts in Hr0 as (_ & _ & _ & Htop & _).
    exists r0, m. split; [by eapply list_elem_of_lookup_2|].
    split. { rewrite Htop in Hm. eapply elem_of_prefix; [exact Hm|apply slice_to_prefix]. }
    split; [done|].
    apply lookup_seqZ in Hk0 as [Hk0 _]. apply lookup_seqZ in Hk as [Hk _]. lia.
Qed.

End FinalRanking.

Section CompletedRun.
Import AgenticPipeline Rounds.

(** A completed run: its records are sound, one for each round of the plan,
    and its result is the sorted list of everything the rounds ranked, with
    ranks by position. *)
Lemma completed_run_final tool parameters g final total w' :
  let plan := resolve_plan parameters in
  let accumulated := concat (map rl_ranked (log w')) in
  run (Ok tool) parameters (queued g) = (Ok (Completed final total), w') ->
  log_sound tool plan [] (seqZ 1 (PlannerAgent.rounds plan)) (log w')
  /\ length (log w') = length (seqZ 1 (PlannerAgent.rounds plan))
  /\ final = imap (fun idx m => with_rank m (Z.of_nat idx + 1))
                  (sorted_reverse mol_score accumulated)
  /\ total = len final
  /\ stored_molecules (db w') = final
  /\ status (stored_run (db w')) = "completed".
Proof.
  intros plan accumulated Hrun.
  destruct (run_cases tool parameters g) as (w0 & l & Hlog & Hsound & _ & Hcases).
  fold plan in Hsound, Hcases.
  destruct Hcases as [(Hrun' & Hlength & Hstored & Hstatus)|(e & k & g1 & out & g1' & Hrun' & _)];
    rewrite Hrun in Hrun'; [|done].
  injection Hrun' as -> -> <-. by subst l.
Qed.

(** Every molecule that a round ranked is an admitted candidate of that
    round. *)
Lemma ranked_is_admitted tool plan seed round_nums l r m :
  log_sound tool plan seed round_nums l ->
  r ∈ l -> m ∈ rl_ranked r ->
  exists smiles, smiles ∈ rl_candidates r
    /\ evaluated tool plan (rl_round r) smiles = Some m
    /\ passedAdmission m = true.
Proof.
  intros Hsound Hr Hm.
  pose proof (log_sound_rounds _ _ _ _ _ Hsound) as Hrounds.
  rewrite Forall_forall in Hrounds.
  destruct (Hrounds r Hr) as [Hranked _]. rewrite Hranked, sorted_reverse_perm in Hm.
  apply admitted_in in Hm as (Hpass & smiles & Hs & Hev). eauto.
Qed.


(** C1.  For every completed run: all rounds of the plan were carried out;
    the final list consists of exactly the admitted candidates of all
    rounds (the valid candidates of each round that pass the admission
    filter), each one once per round in which it was admitted; it is in
    descending order of score; candidates with equal scores stand in the
    order in which the rounds accumulated them; the rank of each element is
    its position in the list, counted from one; the list is what the run
    writes to the store; every element is a valid candidate that passed
    admission; and every seed passed to a round is the structure of an
    element of the final list that the round before it ranked.  The scores
    must not be [nan], which no order can place. *)
Theorem completed_run_ranks_admitted_candidates
    (tool : chemistry_tool) (parameters : PlannerAgent.context) (g : rng)
    (final : list mol) (total : Z) (w' : world) :
  let plan := resolve_plan parameters in
  let trace := log w' in
  let accumulated := concat (map rl_ranked trace) in
  let admitted_all :=
    concat (map (fun r => admitted tool plan (rl_round r) (rl_candidates r)) trace) in
  run (Ok tool) parameters (queued g) = (Ok (Completed final total), w') ->
  Spec.comparable mol_score final ->
  map rl_round trace = seqZ 1 (PlannerAgent.rounds plan)
  /\ accumulated ≡ₚ admitted_all
  /\ map unranked final ≡ₚ admitted_all
  /\ Spec.descending mol_score final
  /\ (forall s, Spec.with_key mol_score s (map unranked final)
                = Spec.with_key mol_score s accumulated)
  /\ (forall i m, final !! i = Some m -> mol_rank m = Some (Z.of_nat i + 1))
  /\ total = len final
  /\ stored_molecules (db w') = final
  /\ (forall m, m ∈ final ->
        mol_valid m = true /\ passedAdmission m = true
        /\ exists result,
             tool (mol_smiles m) = Ok result /\ pr_valid result = true
             /\ pr_properties result = Some (mol_properties m))
  /\ (forall r s, r ∈ trace -> s ∈ rl_seed r ->
        exists m, m ∈ final /\ mol_smiles m = s /\ mol_round m = rl_round r - 1).
Proof.
  intros plan trace accumulated admitted_all Hrun Hnan.
  destruct (completed_run_final _ _ _ _ _ _ Hrun)
    as (Hsound & Hlength & -> & -> & Hstored & _).
  fold plan trace in Hsound, Hlength, Hstored, Hnan |- *.
  fold accumulated in Hstored, Hnan |- *.
  set (sorted := sorted_reverse mol_score accumulated) in *.
  set (final := imap (fun idx m => with_rank m (Z.of_nat idx + 1)) sorted) in *.
  pose proof (log_sound_rounds _ _ _ _ _ Hsound) as Hrounds.
  assert (Hperm : accumulated ≡ₚ admitted_all).
  { apply concat_map_perm. eapply Forall_impl; [exact Hrounds|].
    intros r [-> _]. apply sorted_reverse_perm. }
  pose proof (fun r m => ranked_is_admitted _ _ _ _ _ r m Hsound) as Hin.
  assert (Hacc : forall m, m ∈ sorted -> exists r, r ∈ trace /\ m ∈ rl_ranked r).
  { intros m Hm. unfold sorted in Hm. rewrite sorted_reverse_perm in Hm.
    by apply elem_of_concat_map in Hm. }
  assert (Hunranked : Forall (fun m => mol_rank m = None) sorted).
  { apply Forall_forall. intros m Hm. destruct (Hacc m Hm) as (r & Hr & Hmr).
    destruct (Hin r m Hr Hmr) as (smiles & _ & Hev & _).
    by apply evaluated_Some in Hev as (_ & _ & ? & _). }
  destruct (ranks_by_position (fun idx => Z.of_nat idx + 1) sorted Hunranked)
    as [Hmap Hscores].
  fold final in Hmap, Hscores.
  assert (Hnan' : Spec.comparable mol_score accumulated).
  { unfold Spec.comparable in *. rewrite <- (sorted_reverse_perm mol_score accumulated).
    fold sorted. clear -Hnan Hscores.
    induction Hscores as [|a b l1 l2 Hab _ IH]; [done|].
    apply Forall_cons in Hnan as [Hb Hnan]. constructor; [by rewrite Hab|by apply IH]. }
  split. { by apply (log_sound_length _ _ _ _ _ Hsound). }
  split; [exact Hperm|].
  split. { rewrite Hmap. unfold sorted. by rewrite sorted_reverse_perm. }
  split. { eapply descending_same_keys; [exact Hscores|].
           by apply sorted_reverse_descending. }
  split. { intros s. rewrite Hmap. apply sorted_reverse_with_key. }
  split. { intros i m Hi. apply list_lookup_imap_Some in Hi as (m0 & _ & ->). done. }
  split; [done|]. split; [done|].
  split.
  - intros m Hm. apply elem_of_lookup_imap_1 in Hm as (i & m0 & -> & Hi).
    apply list_elem_of_lookup_2 in Hi. destruct (Hacc m0 Hi) as (r & Hr & Hmr).
    destruct (Hin r m0 Hr Hmr) as (smiles & _ & Hev & Hpass).
    pose proof (evaluated_valid _ _ _ _ _ Hev) as Hvalid.
    apply evaluated_Some in Hev as (Hsmiles & _ & _ & _ & _ & result & Htool & Hv & Hp).
    cbn [mol_valid mol_smiles mol_properties with_rank]. rewrite Hsmiles.
    split; [done|]. split; [done|]. eauto.
  - intros r s Hr Hs.
    destruct (log_sound_seeds _ _ _ _ _ _ Hsound Hr Hs)
      as (r0 & m0 & Hr0 & Hm0 & Hs0 & Hround).
    destruct (Hin r0 m0 Hr0 Hm0) as (smiles & _ & Hev & _).
    apply evaluated_Some in Hev as (_ & Hround0 & _).
    assert (Hsorted : m0 ∈ sorted).
    { unfold sorted. rewrite sorted_reverse_perm. apply elem_of_concat_map. eauto. }
    apply list_elem_of_lookup in Hsorted as [i Hi].
    exists (with_rank m0 (Z.of_nat i + 1)).
    split.
    { exact (elem_of_lookup_imap_2 (fun idx m => with_rank m (Z.of_nat idx + 1))
               sorted m0 i Hi). }
    cbn [mol_smiles mol_round with_rank]. split; [done|]. lia.
Qed.

End CompletedRun.

(** ** Errors of the oracle *)

Section OracleErrors.
Import AgenticPipeline Rounds.




End OracleErrors.

Section Outage.
Import AgenticPipeline Rounds.

Lemma run_rounds_app tool plan screening rs1 rs2 seed all w :
  run_rounds tool plan screening (rs1 ++ rs2) seed all w
    = match run_rounds tool plan screening rs1 seed all w with
      | (Ok (seed', all'), w1) => run_rounds tool plan screening rs2 seed' all' w1
      | (Raise e, w1) => (Raise e, w1)
      end.
Proof.
  revert seed all w. induction rs1 as [|k rs1 IH]; intros seed all w; [done|].
  cbn [app run_rounds]. unfold mbind, M_bind, Py.bind.
  destruct (run_round tool plan screening k seed all w) as [[[seed' all']|e] w1]; [|done].
  apply IH.
Qed.

(** C8, as the code has it.  When the rounds before round [k + 1] have
    completed and the oracle throws for every candidate of round [k + 1],
    of which there is at least one, the run ends with the status
    ["failed"]; its error message is the text of the exception that the
    oracle threw for the first candidate of that round; and no molecule
    record has been added to the session or written to the store, the
    records being written after the last round only. *)
Theorem oracle_outage_fails_the_run
    (tool : chemistry_tool) (parameters : PlannerAgent.context) (g : rng)
    (k : Z) (seed all : list mol) (w : world) (out : GeneratorAgent.output) (g' : rng) :
  let plan := resolve_plan parameters in
  0 <= k < PlannerAgent.rounds plan ->
  1 <= PlannerAgent.candidates_per_round plan ->
  rounds_before tool parameters k (queued g) = (Ok (seed, all), w) ->
  GeneratorAgent.act "generator" (gen_context plan (k + 1) (map mol_smiles seed))
    (random w) = (Ok out, g') ->
  Forall (fun smiles => exists e, tool smiles = Raise e) (GeneratorAgent.candidates out) ->
  exists first e w',
    head (GeneratorAgent.candidates out) = Some first
    /\ tool first = Raise e
    /\ run (Ok tool) parameters (queued g) = (Ok (Failed e), w')
    /\ status (stored_run (db w')) = "failed"
    /\ error_message (stored_run (db w')) = Some e
    /\ stored_molecules (db w') = []
    /\ added (db w') = [].
Proof.
  intros plan Hk Hn Hbefore Hgen Hall.
  unfold rounds_before in Hbefore.
  destruct (prepare_run_unfold parameters g)
    as (ws & w0 & Hstart & Hplan & _ & _ & Hadded0 & Hstored0).
  rewrite (bind_Ok _ _ _ _ _ Hstart), (bind_Ok _ _ _ _ _ Hplan) in Hbefore.
  fold plan in Hbefore.
  (* the rounds before round k + 1 add no molecule row *)
  destruct (run_rounds_log tool plan (seqZ 1 k) [] [] w0)
    as (w1 & l & _ & Hsound & Hadded1 & Hstored1 & Hrounds).
  { unfold len. cbn. lia. }
  { done. }
  destruct Hrounds as [[Hrun1 _]|(e & ? & ? & ? & ? & Hrun1 & _)];
    rewrite Hbefore in Hrun1; [|done].
  injection Hrun1 as Hseed Hall' <-.
  (* the size of the seed, for the generator *)
  assert (Hlen : len seed <= Z.max 0 (PlannerAgent.candidates_per_round plan)).
  { rewrite Hseed. unfold last_top. destruct (last l) as [r|] eqn:Hlast.
    - apply last_Some in Hlast as [l' ->].
      assert (Hr : (l' ++ [r]) !! length l' = Some r) by apply list_lookup_middle, eq_refl.
      destruct (log_sound_lookup _ _ _ _ _ _ _ Hsound Hr) as (_ & seed_r & Hsr).
      by apply round_sound_facts in Hsr as (_ & _ & _ & _ & _ & _ & _ & ?).
    - unfold len. cbn. lia. }
  destruct (round_generates plan (k + 1) seed (random w) Hlen)
    as (out' & g'' & Hgen' & Hsize & _).
  rewrite Hgen in Hgen'. injection Hgen' as <- <-.
  destruct (GeneratorAgent.candidates out) as [|first candidates] eqn:Hcands.
  { unfold len in Hsize. cbn [length] in Hsize. lia. }
  apply Forall_cons in Hall as [[e He] _].
  exists first, e.
  (* round k + 1 raises *)
  pose proof (run_round_unfold tool plan (k + 1) seed all w out g' Hgen) as Hround.
  rewrite Hcands, (process_molecules_raises _ _ _ _ _ _ _ _ _ He) in Hround.
  destruct Hround as (w2 & Hrun2 & _ & Hadded2 & Hstored2).
  destruct (fail_run_unfold e w2) as (w3 & Hfail & _ & Hadded3 & Hstored3 & Hstatus & Herror).
  exists w3. split; [done|]. split; [done|]. split.
  - unfold run, try_except, run_try.
    rewrite (bind_Ok _ _ _ _ _ Hstart), (bind_Ok (lift (Ok tool)) _ ws tool ws eq_refl),
      (bind_Ok _ _ _ _ _ Hplan).
    fold plan. fold (screening plan).
    replace (PlannerAgent.rounds plan) with (k + (PlannerAgent.rounds plan - k)) at 1 by lia.
    rewrite seqZ_app by lia.
    rewrite (seqZ_cons (1 + k)) by lia.
    unfold mbind, M_bind, Py.bind. rewrite run_rounds_app, Hbefore.
    cbn [run_rounds]. unfold mbind, M_bind, Py.bind.
    replace (1 + k) with (k + 1) by lia. by rewrite Hrun2.
  - split; [done|]. split; [done|]. split; [|done].
    by rewrite Hstored3, Hadded2, Hstored2, Hadded1, Hstored1, Hstored0.
Qed.

End Outage.

(** * The properties on concrete runs *)

Section Checks.
Import AgenticPipeline Rounds.

Lemma comparable_forallb {A} (key : A -> float) (l : list A) :
  forallb (fun a => negb (is_nan (key a))) l = true -> Spec.comparable key l.
Proof.
  unfold Spec.comparable. rewrite forallb_forall, Forall_forall.
  intros Hall a Ha%list_elem_of_In. apply Hall in Ha. by destruct (is_nan (key a)).
Qed.

Lemma scores_computed penalty (molecules : list mol) (scores : list float) :
  map (fun m => RankerAgent._calculate_score m penalty) molecules = map Ok scores ->
  Forall2 (fun m s => RankerAgent._calculate_score m penalty = Ok s) molecules scores.
Proof.
  revert scores. induction molecules as [|m molecules IH]; intros [|s scores]; cbn;
    try done.
  intros [= Hm Hrest]. constructor; [done|by apply IH].
Qed.


End Checks.

Section Concrete.
Import AgenticPipeline Rounds.

(** C4 on a seed that no mutation changes, for more candidates than there
    are base molecules. *)
Lemma generate_twelve_from_inert_seed :
  1 <= 12
  /\ exists out g',
       GeneratorAgent.act "generator"
         {| GeneratorAgent.n_candidates := Some 12;
            GeneratorAgent.round_num := Some 2;
            GeneratorAgent.seed_molecules := Some ["XX"] |} Examples.sevens
         = (Ok out, g')
       /\ len (GeneratorAgent.candidates out) = 12.
Proof.
  split; [lia|].
  apply (generate_returns_exactly_n "generator" 12 2 ["XX"] Examples.sevens). lia.
Defined.

(** C5 on three molecules, the first and the last of which have one and the
    same score. *)
Lemma rank_three_with_a_tie :
  let scores := [0.0469; 0.125; 0.0469]%float in
  Forall2 (fun m s => RankerAgent._calculate_score m 0.1 = Ok s) Examples.three scores
  /\ Spec.comparable (fun s : float => s) scores
  /\ exists out,
       RankerAgent.act "ranker"
         {| RankerAgent.molecules := Some Examples.three;
            RankerAgent.scoring_penalty := Some 0.1%float;
            RankerAgent.top_k := Some 2 |} = Ok out
       /\ let scored := zip_with with_score Examples.three scores in
          let all := RankerAgent.ranked_molecules out in
          let elite := RankerAgent.top_molecules out in
          all ≡ₚ scored
          /\ Spec.descending mol_score all
          /\ (forall s, Spec.with_key mol_score s all = Spec.with_key mol_score s scored)
          /\ elite = slice_to all (Z.min 2 (len all))
          /\ elite `prefix_of` all
          /\ len all = len Examples.three
          /\ (0 <= 2 ->
                elite = take (Z.to_nat 2) all /\ len elite = Z.min 2 (len Examples.three))
          /\ RankerAgent.n_ranked out = len all
          /\ RankerAgent.n_top out = len elite
          /\ (map mol_score Examples.three = scores -> scored = Examples.three).
Proof.
  intros scores.
  assert (Hscores : Forall2 (fun m s => RankerAgent._calculate_score m 0.1 = Ok s)
                      Examples.three scores).
  { apply scores_computed. vm_compute. reflexivity. }
  assert (Hnan : Spec.comparable (fun s : float => s) scores).
  { apply comparable_forallb. vm_compute. reflexivity. }
  split; [exact Hscores|]. split; [exact Hnan|].
  exact (ranker_sorts_stably_and_takes_prefix "ranker" Examples.three 0.1 2 scores
           Hscores Hnan).
Defined.

(** C6 on the two rounds of the example run. *)
Lemma second_round_seeded_by_first :
  let tool := Examples.tool in
  let parameters := Examples.parameters 2 6 2 in
  let g := Examples.draws in
  let r1 := Examples.first_round in
  let r2 := Examples.second_round in
  let plan := resolve_plan parameters in
  let n := PlannerAgent.candidates_per_round plan in
  let trace := log (run (Ok tool) parameters (queued g)).2 in
  let seeds := map mol_smiles (rl_top r1) in
  trace !! 0%nat = Some r1
  /\ trace !! 1%nat = Some r2
  /\ seeds = ["CC(=O)Oc1ccccc1C(O)=O"; "CC(=O)Oc1ccc(O)cc1C(O)=O"]
  /\ rl_candidates r2
       = ["CC(=O)Oc1ccccc1C(O)=O"; "CC(=O)Oc1ccc(O)cc1C(O)=O";
          "CCC(=O)Oc1ccc(O)cc1C(O)=O"; "CCC(=O)Oc1ccccc1C(O)=O";
          "CCC(=O)Oc1ccccc1C(O)=O"; "CCC(=O)Oc1ccccc1C(O)=O"]
  /\ (rl_round r1 = Z.of_nat 0 + 1
      /\ (exists rank_result,
            RankerAgent.act "ranker" (rank_context plan (rl_processed r1)) = Ok rank_result
            /\ rl_top r1 = RankerAgent.top_molecules rank_result)
      /\ rl_top r1 = slice_to (rl_ranked r1) (PlannerAgent.top_k plan)
      /\ len seeds <= Z.max 0 n
      /\ (forall r2, trace !! 1%nat = Some r2 ->
            rl_round r2 = rl_round r1 + 1
            /\ rl_seed r2 = seeds
            /\ (exists g1 out g2,
                  GeneratorAgent.act "generator" (gen_context plan (rl_round r2) seeds) g1
                    = (Ok out, g2)
                  /\ GeneratorAgent.candidates out = rl_candidates r2)
            /\ slice_to (rl_candidates r2) (Z.min (len seeds) n) = seeds
            /\ take (length seeds) (rl_candidates r2) = seeds)
      /\ (trace !! 1%nat = None -> rl_round r1 < PlannerAgent.rounds plan ->
            exists e w' g1 out g2,
              run (Ok tool) parameters (queued g) = (Ok (Failed e), w')
              /\ GeneratorAgent.act "generator"
                   (gen_context plan (rl_round r1 + 1) seeds) g1 = (Ok out, g2)
              /\ take (length seeds) (GeneratorAgent.candidates out) = seeds
              /\ process_molecules tool (screening plan)
                   (PlannerAgent.scoring_penalty plan) (rl_round r1 + 1)
                   (GeneratorAgent.candidates out) [] 0 = Raise e)).
Proof.
  intros tool parameters g r1 r2 plan n trace seeds.
  assert (H1 : trace !! 0%nat = Some r1) by (vm_compute; reflexivity).
  split; [exact H1|]. split; [vm_compute; reflexivity|].
  split; [vm_compute; reflexivity|]. split; [vm_compute; reflexivity|].
  exact (next_round_starts_with_elite tool parameters g 0 r1 H1).
Defined.

(** C1 on the example run: of the twelve candidates of its two rounds nine
    are admitted, and these are the final list. *)
Lemma two_rounds_completed :
  let tool := Examples.tool in
  let parameters := Examples.parameters 2 6 2 in
  let g := Examples.draws in
  let final := Examples.final in
  let total := 9 in
  let w' := Examples.two_rounds.2 in
  run (Ok tool) parameters (queued g) = (Ok (Completed final total), w')
  /\ Spec.comparable mol_score final
  /\ map (fun m => (mol_smiles m, mol_round m, mol_rank m)) final
       = [("CCC(=O)Oc1ccccc1C(O)=O", 2, Some 1);
          ("CCC(=O)Oc1ccccc1C(O)=O", 2, Some 2);
          ("CCC(=O)Oc1ccccc1C(O)=O", 2, Some 3);
          ("CC(=O)Oc1ccccc1C(O)=O", 1, Some 4);
          ("CC(=O)Oc1ccccc1C(O)=O", 2, Some 5);
          ("CCC(=O)Oc1ccc(O)cc1C(O)=O", 2, Some 6);
          ("CC(=O)Oc1ccc(O)cc1C(O)=O", 1, Some 7);
          ("CC(=O)Oc1ccc(O)cc1C(O)=O", 2, Some 8);
          ("c1ccccc1", 1, Some 9)]
  /\ (let plan := resolve_plan parameters in
      let trace := log w' in
      let accumulated := concat (map rl_ranked trace) in
      let admitted_all :=
        concat (map (fun r => admitted tool plan (rl_round r) (rl_candidates r)) trace) in
      map rl_round trace = seqZ 1 (PlannerAgent.rounds plan)
      /\ accumulated ≡ₚ admitted_all
      /\ map unranked final ≡ₚ admitted_all
      /\ Spec.descending mol_score final
      /\ (forall s, Spec.with_key mol_score s (map unranked final)
                    = Spec.with_key mol_score s accumulated)
      /\ (forall i m, final !! i = Some m -> mol_rank m = Some (Z.of_nat i + 1))
      /\ total = len final
      /\ stored_molecules (db w') = final
      /\ (forall m, m ∈ final ->
            mol_valid m = true /\ passedAdmission m = true
            /\ exists result,
                 tool (mol_smiles m) = Ok result /\ pr_valid result = true
                 /\ pr_properties result = Some (mol_properties m))
      /\ (forall r s, r ∈ trace -> s ∈ rl_seed r ->
            exists m, m ∈ final /\ mol_smiles m = s /\ mol_round m = rl_round r - 1)).
Proof.
  intros tool parameters g final total w'.
  assert (Hrun : run (Ok tool) parameters (queued g) = (Ok (Completed final total), w'))
    by (vm_compute; reflexivity).
  assert (Hnan : Spec.comparable mol_score final)
    by (apply comparable_forallb; vm_compute; reflexivity).
  split; [exact Hrun|]. split; [exact Hnan|]. split; [vm_compute; reflexivity|].
  exact (completed_run_ranks_admitted_candidates tool parameters g final total w' Hrun Hnan).
Defined.



(** C8 on an oracle that throws for every structure, in the first round. *)
Lemma unreachable_oracle_fails_the_run :
  let tool := Examples.unreachable in
  let parameters := Examples.parameters 2 6 2 in
  let g := Examples.draws in
  let plan := resolve_plan parameters in
  let w := (Examples.before_first tool).2 in
  let out := Examples.first_output in
  let g' := Examples.first_candidates.2 in
  0 <= 0 < PlannerAgent.rounds plan
  /\ 1 <= PlannerAgent.candidates_per_round plan
  /\ rounds_before tool parameters 0 (queued g) = (Ok ([], []), w)
  /\ GeneratorAgent.act "generator" (gen_context plan (0 + 1) (map mol_smiles []))
       (random w) = (Ok out, g')
  /\ Forall (fun smiles => exists e, tool smiles = Raise e) (GeneratorAgent.candidates out)
  /\ exists first e w',
       head (GeneratorAgent.candidates out) = Some first
       /\ tool first = Raise e
       /\ run (Ok tool) parameters (queued g) = (Ok (Failed e), w')
       /\ status (stored_run (db w')) = "failed"
       /\ error_message (stored_run (db w')) = Some e
       /\ stored_molecules (db w') = []
       /\ added (db w') = [].
Proof.
  intros tool parameters g plan w out g'.
  assert (Hk : 0 <= 0 < PlannerAgent.rounds plan)
    by (vm_compute; split; [discriminate|reflexivity]).
  assert (Hn : 1 <= PlannerAgent.candidates_per_round plan) by (vm_compute; discriminate).
  assert (Hbefore : rounds_before tool parameters 0 (queued g) = (Ok ([], []), w))
    by (vm_compute; reflexivity).
  assert (Hgen : GeneratorAgent.act "generator"
                   (gen_context plan (0 + 1) (map mol_smiles [])) (random w)
                 = (Ok out, g')) by (vm_compute; reflexivity).
  assert (Hall : Forall (fun smiles => exists e, tool smiles = Raise e)
                   (GeneratorAgent.candidates out)).
  { apply Forall_forall. intros smiles _. by exists "oracle unreachable". }
  split; [exact Hk|]. split; [exact Hn|]. split; [exact Hbefore|]. split; [exact Hgen|].
  split; [exact Hall|].
  exact (oracle_outage_fails_the_run tool parameters g 0 [] [] w out g'
           Hk Hn Hbefore Hgen Hall).
Defined.

(** Against C8 as the specification has it: the oracle throws an exception
    without a text for every candidate; the run ends with the status
    ["failed"], and its error message is the empty string. *)
Lemma outage_with_an_empty_error_message :
  let failed :=
    run (Ok Examples.silent) (Examples.parameters 2 6 2) (queued Examples.draws) in
  map Examples.silent (rl_candidates Examples.first_round)
    = [Raise ""; Raise ""; Raise ""; Raise ""; Raise ""; Raise ""]
  /\ failed.1 = Ok (Failed "")
  /\ status (stored_run (db failed.2)) = "failed"
  /\ error_message (stored_run (db failed.2)) = Some ""
  /\ stored_molecules (db failed.2) = [].
Proof.
  intros failed.
  split; [vm_compute; reflexivity|]. split; [vm_compute; reflexivity|].
  split; [vm_compute; reflexivity|]. split; [vm_compute; reflexivity|].
  vm_compute; reflexivity.
Qed.

End Concrete.
